(** * mediadev: the Openverse gateway server, embedded in Rocq

    The server under [server/src] is an Express application in TypeScript.
    Each handler and service method is embedded as a function over an
    explicit store and an explicit environment:

    - [Js]                 JavaScript truthiness and string helpers;
    - [Openverse]          [services/openverseService.ts], the upstream client;
    - [Database]           the two tables behind the Sequelize models;
    - [UserModel]          [models/User.ts]: hooks, [comparePassword], [toJSON];
    - [AuthMiddleware]     [middlewares/authMiddleware.ts];
    - [AuthController]     [controllers/authController.ts];
    - [SearchController]   [controllers/searchController.ts].

    Third-party libraries are not part of the repository. The upstream
    API behind axios appears as scripted replies; bcryptjs, jsonwebtoken,
    the validator library and the reader of PostgreSQL's [uuid] type appear
    as interfaces. Two facts of the libraries decide what handlers answer
    and are written out: lodash's [throttle], which stands between
    [makeRequest] and every request it sends, follows the functions of
    lodash's [debounce]; and [sequelize.Op], read from an instance of
    Sequelize, is [undefined]. *)

From Stdlib Require Import ZArith String Ascii List Lia.
From stdpp Require Import base option list gmap strings sorting pretty.

(** ** JavaScript values *)

Module Js.

(** [!!s] for a string: every string but the empty one is truthy. *)
Definition truthy (s : string) : bool :=
  match s with
  | EmptyString => false
  | String _ _ => true
  end.

(** [String.prototype.startsWith]. *)
Definition startsWith (p s : string) : bool := String.prefix p s.

(** [s.split(c)] for a one-character separator [c]. *)
Fixpoint splitAux (c : ascii) (s cur : string) : list string :=
  match s with
  | EmptyString => [String.rev cur]
  | String a rest =>
      if Ascii.eqb a c then String.rev cur :: splitAux c rest EmptyString
      else splitAux c rest (String a cur)
  end.

Definition split (c : ascii) (s : string) : list string :=
  splitAux c s EmptyString.

End Js.

(** ** services/openverseService.ts *)

Module Openverse.

Definition API_BASE_URL : string := "https://api.openverse.org/v1".
Definition TIMEOUT : Z := 10000.

(** The fields of an [AxiosRequestConfig] the client sets. *)
Record AxiosRequestConfig := {
  method : string;
  url : string;
  params : gmap string string;
  timeout : Z;
  headers : gmap string string
}.

(** [private accessToken: string | null = null; private tokenExpiresAt = 0]. *)
Record Client := {
  accessToken : option string;
  tokenExpiresAt : Z
}.

Definition newClient : Client :=
  {| accessToken := None; tokenExpiresAt := 0 |}.

(** The body of a successful token exchange. *)
Record TokenResponse := {
  access_token : string;
  expires_in : Z
}.

(** [error.response] of a rejected axios call: the HTTP status and
    [data.detail] when the body carries one. *)
Record ErrorResponse := {
  status : Z;
  detail : option string
}.

(** What a rejected promise carries: an axios error (whose [response] is
    undefined when no reply arrived) or a plain [Error]. *)
Inductive JsError :=
| AxiosError (response : option ErrorResponse)
| Error (message : string).

(** Outbound activity. [GateCall] is a request the gate starts at the
    moment [throttledRequest] is called; [TrailingCall] is a request the
    timer of the gate started on its own, at the given time, which the trace
    takes up when the gate is next used. *)
Inductive Event :=
| TokenExchange
| GateCall (config : AxiosRequestConfig)
| TrailingCall (time : Z) (config : AxiosRequestConfig).

(** How often the gate started a request on being called. *)
Definition gateCalls (tr : list Event) : nat :=
  length (List.filter (fun ev => match ev with GateCall _ => true | _ => false end) tr).

(** How often the token endpoint was called. *)
Definition tokenExchanges (tr : list Event) : nat :=
  length (List.filter (fun ev => match ev with TokenExchange => true | _ => false end) tr).

(** One scripted reply: the time it takes to settle and how it settles. *)
Record Reply (A : Type) := {
  latency : Z;
  outcome : A + JsError
}.
Arguments latency {A} _.
Arguments outcome {A} _.

(** The promise a request of the gate returned: when it settles and how. *)
Record Promise (T : Type) := {
  settlesAt : Z;
  settlement : T + JsError
}.
Arguments settlesAt {T} _.
Arguments settlement {T} _.

(** What [throttle(func, 1000, { leading: true, trailing: true })] keeps
    between calls. lodash builds it as [debounce] with [maxWait = wait];
    the fields are the variables of that closure, [timerId] being the time
    at which the running timer expires. *)
Record Throttle (T : Type) := {
  lastArgs : option AxiosRequestConfig;
  lastCallTime : option Z;
  lastInvokeTime : Z;
  timerId : option Z;
  result : option (Promise T)
}.
Arguments lastArgs {T} _.
Arguments lastCallTime {T} _.
Arguments lastInvokeTime {T} _.
Arguments timerId {T} _.
Arguments result {T} _.

(** The second argument of [throttle]: one request per second. *)
Definition WAIT : Z := 1000.

(** The gate before its first call. *)
Definition idle {T : Type} : Throttle T :=
  {| lastArgs := None; lastCallTime := None; lastInvokeTime := 0;
     timerId := None; result := None |}.

(** The world the client runs in: the clock read by [Date.now()], the
    replies the token endpoint and the upstream API give to the requests
    that reach them, in the order these are started, the outbound activity
    so far, and the state of the throttled gate with its timer. *)
Record World (T : Type) := {
  clock : Z;
  tokenEndpoint : list (Reply TokenResponse);
  gate : list (Reply T);
  trace : list Event;
  throttle : Throttle T
}.
Arguments clock {T} _.
Arguments tokenEndpoint {T} _.
Arguments gate {T} _.
Arguments trace {T} _.
Arguments throttle {T} _.

(** A call that never gets a reply is cut off by axios after [TIMEOUT]. *)
Definition timedOut {A : Type} : Reply A :=
  {| latency := TIMEOUT; outcome := inr (AxiosError None) |}.

Section Monad.
Context {T : Type}.

(** Async methods of the client: they read and write the client's
    fields and the world, and either return or throw. Writes made
    before a throw stay. *)
Definition M (A : Type) : Type :=
  Client * World T -> (A + JsError) * (Client * World T).

Definition ret {A} (a : A) : M A := fun s => (inl a, s).

Definition throw {A} (e : JsError) : M A := fun s => (inr e, s).

Definition bind {A B} (m : M A) (k : A -> M B) : M B :=
  fun s =>
    match m s with
    | (inl a, s') => k a s'
    | (inr e, s') => (inr e, s')
    end.

Definition tryCatch {A} (m : M A) (handler : JsError -> M A) : M A :=
  fun s =>
    match m s with
    | (inl a, s') => (inl a, s')
    | (inr e, s') => handler e s'
    end.

Definition getClient : M Client := fun s => (inl (fst s), s).

Definition setAccessToken (t : option string) : M unit :=
  fun '(c, w) =>
    (inl tt, ({| accessToken := t; tokenExpiresAt := tokenExpiresAt c |}, w)).

Definition setTokenExpiresAt (e : Z) : M unit :=
  fun '(c, w) =>
    (inl tt, ({| accessToken := accessToken c; tokenExpiresAt := e |}, w)).

(** [Date.now()]. *)
Definition dateNow : M Z := fun s => (inl (clock (snd s)), s).

(** [await axios.post(`${API_BASE_URL}/auth_tokens/token/`, ...)]. *)
Definition axiosPostToken : M TokenResponse :=
  fun '(c, w) =>
    let r := match tokenEndpoint w with
             | r :: _ => r
             | [] => timedOut
             end in
    (outcome r,
     (c, {| clock := (clock w + latency r)%Z;
            tokenEndpoint := tail (tokenEndpoint w);
            gate := gate w;
            trace := trace w ++ [TokenExchange];
            throttle := throttle w |})).

(** *** The throttled gate

    [throttledRequest] is [throttle(config => axios.request(config), 1000,
    { leading: true, trailing: true })]. The functions below follow
    lodash's [debounce], which [throttle] calls with [maxWait = wait]. *)

Definition setThrottle (th : Throttle T) (w : World T) : World T :=
  {| clock := clock w; tokenEndpoint := tokenEndpoint w; gate := gate w;
     trace := trace w; throttle := th |}.

(** [shouldInvoke(time)]. *)
Definition shouldInvoke (time : Z) (th : Throttle T) : bool :=
  match lastCallTime th with
  | None => true
  | Some lc =>
      (WAIT <=? time - lc)%Z || (time - lc <? 0)%Z
      || (WAIT <=? time - lastInvokeTime th)%Z
  end.

(** [remainingWait(time)]; it is read only while a call is on record. *)
Definition remainingWait (time : Z) (th : Throttle T) : Z :=
  match lastCallTime th with
  | Some lc => Z.min (WAIT - (time - lc)) (WAIT - (time - lastInvokeTime th))
  | None => 0
  end.

(** [invokeFunc(time)] with [lastArgs = config]: the request is started,
    takes the next reply of the upstream API and settles after its
    latency; [started] is the entry it leaves in the trace. *)
Definition invokeFunc (time : Z) (config : AxiosRequestConfig)
    (started : AxiosRequestConfig -> Event) (w : World T) : World T :=
  let r := hd timedOut (gate w) in
  {| clock := clock w;
     tokenEndpoint := tokenEndpoint w;
     gate := tail (gate w);
     trace := trace w ++ [started config];
     throttle :=
       {| lastArgs := None;
          lastCallTime := lastCallTime (throttle w);
          lastInvokeTime := time;
          timerId := timerId (throttle w);
          result := Some {| settlesAt := (time + latency r)%Z;
                                settlement := outcome r |} |} |}.

(** [timerId = ...]: the timer set, or cleared. *)
Definition withTimer (timer : option Z) (th : Throttle T) : Throttle T :=
  {| lastArgs := lastArgs th; lastCallTime := lastCallTime th;
     lastInvokeTime := lastInvokeTime th; timerId := timer;
     result := result th |}.

(** [leadingEdge(time)] with [lastArgs = config]: the record of the last
    invocation is reset, the timer for the trailing edge is started, and
    the request goes out. *)
Definition leadingEdge (time : Z) (config : AxiosRequestConfig) (w : World T)
  : World T :=
  let th := throttle w in
  invokeFunc time config GateCall
    (setThrottle
       (withTimer (Some (time + WAIT)%Z)
          {| lastArgs := lastArgs th; lastCallTime := lastCallTime th;
             lastInvokeTime := time; timerId := timerId th;
             result := result th |}) w).

(** [trailingEdge(time)]: the request of the last call that was held
    back, if there is one, goes out now. *)
Definition trailingEdge (time : Z) (w : World T) : World T :=
  let w' := setThrottle (withTimer None (throttle w)) w in
  match lastArgs (throttle w) with
  | Some config => invokeFunc time config (TrailingCall time) w'
  | None => w'
  end.

(** [timerExpired()], run at the time the timer was set for. *)
Definition timerExpired (time : Z) (w : World T) : World T :=
  let th := throttle w in
  if shouldInvoke time th then trailingEdge time w
  else setThrottle (withTimer (Some (time + remainingWait time th)%Z) th) w.

(** The timers that came due up to [time]. A timer that does not reach the
    trailing edge is set again once, for the trailing edge. *)
Fixpoint runTimers (fuel : nat) (time : Z) (w : World T) : World T :=
  match fuel with
  | O => w
  | S fuel' =>
      match timerId (throttle w) with
      | Some due =>
          if (due <=? time)%Z then runTimers fuel' time (timerExpired due w)
          else w
      | None => w
      end
  end.

(** [debounced(config)]: the call itself, made at the time of the clock
    after the timers due by then have run. It gives the world after the
    call and the promise the call returns: the promise of the request it
    started or, inside the window, the promise of the request before. *)
Definition debounced (config : AxiosRequestConfig) (w : World T)
  : World T * option (Promise T) :=
  let time := clock w in
  let w0 := runTimers 2 time w in
  let isInvoking := shouldInvoke time (throttle w0) in
  let th :=
    {| lastArgs := Some config; lastCallTime := Some time;
       lastInvokeTime := lastInvokeTime (throttle w0);
       timerId := timerId (throttle w0);
       result := result (throttle w0) |} in
  let w1 := setThrottle th w0 in
  match isInvoking, timerId th with
  | true, None =>
      let w2 := leadingEdge time config w1 in
      (w2, result (throttle w2))
  | true, Some _ =>
      let w2 :=
        invokeFunc time config GateCall
          (setThrottle (withTimer (Some (time + WAIT)%Z) th) w1) in
      (w2, result (throttle w2))
  | false, None =>
      (setThrottle (withTimer (Some (time + WAIT)%Z) th) w1, result th)
  | false, Some _ => (w1, result th)
  end.

(** [await this.throttledRequest<T>(config)] and the [response.data] read
    from it: the caller waits until the promise it was handed settles. *)
Definition throttledRequest (config : AxiosRequestConfig) : M T :=
  fun '(c, w) =>
    match debounced config w with
    | (w1, Some promise) =>
        (settlement promise,
         (c, {| clock := Z.max (clock w1) (settlesAt promise);
                tokenEndpoint := tokenEndpoint w1;
                gate := gate w1;
                trace := trace w1;
                throttle := throttle w1 |}))
    | (w1, None) =>
        (inr (Error "Cannot read properties of undefined (reading 'data')"),
         (c, w1))
    end.

End Monad.

Declare Scope client_scope.
Delimit Scope client_scope with client.
Notation "x <- m ;; k" := (bind m (fun x => k))
  (at level 100, m at next level, right associativity) : client_scope.
Notation "m ;;; k" := (bind m (fun _ => k))
  (at level 100, right associativity) : client_scope.

Section Methods.
Context {T : Type}.
Local Open Scope client_scope.

(** The guard of [getAccessToken]:
    [this.accessToken && Date.now() < this.tokenExpiresAt]. *)
Definition cachedToken (c : Client) (now : Z) : option string :=
  match accessToken c with
  | Some tok =>
      if Js.truthy tok && (now <? tokenExpiresAt c)%Z then Some tok else None
  | None => None
  end.

Definition getAccessToken : M (T := T) string :=
  c <- getClient ;;
  now <- dateNow ;;
  match cachedToken c now with
  | Some tok => ret tok
  | None =>
      tryCatch
        (response <- axiosPostToken ;;
         setAccessToken (Some (access_token response)) ;;;
         now' <- dateNow ;;
         setTokenExpiresAt (now' + expires_in response * 1000 - 300000)%Z ;;;
         ret (access_token response))
        (fun _ => throw (Error "Authentication with Openverse API failed"))
  end.

(** [{ ...config, headers: { ...config.headers, Authorization } }]. *)
Definition withBearer (config : AxiosRequestConfig) (token : string)
  : AxiosRequestConfig :=
  {| method := method config;
     url := url config;
     params := params config;
     timeout := timeout config;
     headers := <["Authorization" := "Bearer " +:+ token]> (headers config) |}.

Definition createAuthenticatedConfig (config : AxiosRequestConfig)
  : M (T := T) AxiosRequestConfig :=
  token <- getAccessToken ;;
  ret (withBearer config token).

(** The two statements both the [try] block and the retry run. *)
Definition attempt (config : AxiosRequestConfig) : M T :=
  authConfig <- createAuthenticatedConfig config ;;
  throttledRequest authConfig.

Definition apiErrorMessage (st : Z) (d : string) : string :=
  "Openverse API error (" +:+ pretty st +:+ "): " +:+ d.

Definition onRequestError (config : AxiosRequestConfig) (error : JsError)
  : M T :=
  match error with
  | AxiosError (Some response) =>
      if (status response =? 401)%Z || (status response =? 403)%Z then
        setAccessToken None ;;;
        attempt config
      else
        match detail response with
        | Some d =>
            if Js.truthy d
            then throw (Error (apiErrorMessage (status response) d))
            else throw error
        | None => throw error
        end
  | _ => throw error
  end.

Definition makeRequest (config : AxiosRequestConfig) : M T :=
  tryCatch (attempt config) (onRequestError config).

(** The typed operations fix the method and the path. *)
Definition get (path : string) (ps : gmap string string) : M T :=
  makeRequest {| method := "GET"; url := API_BASE_URL +:+ path;
                 params := ps; timeout := TIMEOUT; headers := ∅ |}.

Definition searchImages (ps : gmap string string) : M T := get "/images/" ps.
Definition searchAudio (ps : gmap string string) : M T := get "/audio/" ps.
Definition getStats : M T := get "/stats/" ∅.

Definition getImageDetails (i : string) : M T :=
  get ("/images/" +:+ i +:+ "/") ∅.
Definition getAudioDetails (i : string) : M T :=
  get ("/audio/" +:+ i +:+ "/") ∅.
Definition getRelatedImages (i : string) : M T :=
  get ("/images/" +:+ i +:+ "/related/") ∅.
Definition getRelatedAudio (i : string) : M T :=
  get ("/audio/" +:+ i +:+ "/related/") ∅.

End Methods.

End Openverse.

(** ** models/User.ts *)

Module UserModel.

(** [UserAttributes]. Dates are milliseconds since the epoch. *)
Record User := {
  id : string;
  username : string;
  email : string;
  password : string;
  firstName : option string;
  lastName : option string;
  isActive : bool;
  lastLogin : option Z;
  createdAt : Z;
  updatedAt : Z
}.

Definition setPassword (p : string) (u : User) : User :=
  {| id := id u; username := username u; email := email u; password := p;
     firstName := firstName u; lastName := lastName u;
     isActive := isActive u; lastLogin := lastLogin u;
     createdAt := createdAt u; updatedAt := updatedAt u |}.

Definition setLastLogin (t : Z) (u : User) : User :=
  {| id := id u; username := username u; email := email u;
     password := password u;
     firstName := firstName u; lastName := lastName u;
     isActive := isActive u; lastLogin := Some t;
     createdAt := createdAt u; updatedAt := updatedAt u |}.

Definition setUpdatedAt (t : Z) (u : User) : User :=
  {| id := id u; username := username u; email := email u;
     password := password u;
     firstName := firstName u; lastName := lastName u;
     isActive := isActive u; lastLogin := lastLogin u;
     createdAt := createdAt u; updatedAt := t |}.

(** The library behind [import bcrypt from 'bcryptjs']: [hash password
    salt] and [compare candidate stored]. The salt [genSalt] draws is an
    input of the operation that hashes. *)
Class Bcrypt := {
  hash : string -> string -> string;
  compare : string -> string -> bool
}.

(** The contract the server relies on: a candidate matches a hash exactly
    when it is the password that was hashed. *)
Class BcryptLaws `{Bcrypt} := {
  compare_hash : forall candidate p salt,
    compare candidate (hash p salt) = true <-> candidate = p
}.

(** [comparePassword(candidatePassword)]. *)
Definition comparePassword `{Bcrypt} (user : User) (candidatePassword : string)
  : bool :=
  compare candidatePassword (password user).

(** A serialised attribute value. *)
Inductive Value :=
| VString (s : string)
| VBool (b : bool)
| VDate (t : Z)
| VNull.

Definition optional {A} (f : A -> Value) (o : option A) : Value :=
  match o with
  | Some a => f a
  | None => VNull
  end.

(** [this.get()]: the attributes as a plain object. *)
Definition get (u : User) : gmap string Value :=
  <["id" := VString (id u)]>
  (<["username" := VString (username u)]>
  (<["email" := VString (email u)]>
  (<["password" := VString (password u)]>
  (<["firstName" := optional VString (firstName u)]>
  (<["lastName" := optional VString (lastName u)]>
  (<["isActive" := VBool (isActive u)]>
  (<["lastLogin" := optional VDate (lastLogin u)]>
  (<["createdAt" := VDate (createdAt u)]>
  (<["updatedAt" := VDate (updatedAt u)]> ∅))))))))).

(** [toJSON()]: [const values = { ...this.get() }; delete values.password]. *)
Definition toJSON (u : User) : gmap string Value :=
  delete "password" (get u).

(** [hooks.beforeCreate]. *)
Definition beforeCreate `{Bcrypt} (salt : string) (user : User) : User :=
  if Js.truthy (password user)
  then setPassword (hash (password user) salt) user
  else user.

(** [hooks.beforeUpdate]; [changedPassword] is [user.changed('password')]. *)
Definition beforeUpdate `{Bcrypt} (changedPassword : bool) (salt : string)
    (user : User) : User :=
  if changedPassword
  then setPassword (hash (password user) salt) user
  else user.

(** The attribute validators: [len: [3, 50]] and [isEmail: true]. Both
    checks belong to the validator library, which Sequelize calls as
    [isLength(value, 3, 50)] and [isEmail(value)]; how [isLength] counts
    the characters of a text is the library's. *)
Class Validator := {
  isEmail : string -> bool;
  isLength : string -> nat -> nat -> bool
}.

Definition validUsername `{Validator} (s : string) : bool :=
  isLength s 3 50.

End UserModel.

(** ** models/SearchHistory.ts *)

Module SearchHistoryModel.

(** [DataTypes.ENUM('image', 'audio', 'video', 'all')]. *)
Inductive MediaType := image | audio | video | all.

Definition parseMediaType (s : string) : option MediaType :=
  if String.eqb s "image" then Some image
  else if String.eqb s "audio" then Some audio
  else if String.eqb s "video" then Some video
  else if String.eqb s "all" then Some all
  else None.

(** [SearchHistoryAttributes] without the primary key, which is the key
    of the table. *)
Record SearchHistory := {
  userId : string;
  query : string;
  filters : list (string * string);
  mediaType : MediaType;
  resultCount : Z;
  createdAt : Z;
  updatedAt : Z
}.

End SearchHistoryModel.

(** ** The database behind the models *)

Module Database.
Import UserModel SearchHistoryModel.

(** Tables by primary key. [available = false] is a database that
    rejects every query. *)
Record Db := {
  available : bool;
  users : gmap string User;
  search_histories : gmap string SearchHistory
}.

Definition withUsers (us : gmap string User) (db : Db) : Db :=
  {| available := available db; users := us;
     search_histories := search_histories db |}.

Definition withHistories (hs : gmap string SearchHistory) (db : Db) : Db :=
  {| available := available db; users := users db;
     search_histories := hs |}.

(** The database is PostgreSQL ([dialect: 'postgres']). [uuid_in] is the
    reader of its type [uuid], the type of both [id] columns: the key a
    text denotes, or nothing for a text that is no UUID. *)
Class Postgres := { uuid_in : string -> option string }.

(** The strings of the model are the UTF-8 bytes of the program's
    strings. [char_length] counts characters as a [VARCHAR(n)] column
    does: one for every byte that does not continue a character. *)
Definition isContinuation (a : ascii) : bool :=
  (128 <=? nat_of_ascii a)%nat && (nat_of_ascii a <? 192)%nat.

Fixpoint char_length (s : string) : nat :=
  match s with
  | EmptyString => 0
  | String a s' =>
      if isContinuation a then char_length s' else S (char_length s')
  end.

(** The first [n] characters of a text, and what follows them. *)
Fixpoint splitChars (n : nat) (s : string) : string * string :=
  match s with
  | EmptyString => (EmptyString, EmptyString)
  | String a s' =>
      if isContinuation a then
        let (kept, excess) := splitChars n s' in (String a kept, excess)
      else
        match n with
        | O => (EmptyString, s)
        | S n' =>
            let (kept, excess) := splitChars n' s' in (String a kept, excess)
        end
  end.

Definition onlyBlanks (s : string) : bool :=
  forallb (Ascii.eqb " ") (list_ascii_of_string s).

(** What a [VARCHAR(n)] column stores for a text: the text itself when it
    has at most [n] characters. A longer text is refused, unless all that
    exceeds the length is blanks, which PostgreSQL then cuts off. *)
Definition varchar (n : nat) (s : string) : option string :=
  if (char_length s <=? n)%nat then Some s
  else
    let (kept, excess) := splitChars n s in
    if onlyBlanks excess then Some kept else None.

(** The values of an [INTEGER] column. *)
Definition int4 (n : Z) : bool :=
  (-2147483648 <=? n)%Z && (n <=? 2147483647)%Z.

(** What a rejected query throws. *)
Inductive DbError :=
| ConnectionError
| ValidationError (field : string)
| UniqueConstraintError (field : string)
| DatabaseError (field : string).

(** What a request draws from its surroundings: the time of [new Date()],
    the UUID of a new row and the salt of [bcrypt.genSalt]. *)
Record Ctx := {
  now : Z;
  uuid : string;
  salt : string
}.

(** [Model.findOne({ where })] over a table. *)
Definition findRow {A} (p : string -> A -> bool) (t : gmap string A)
  : option (string * A) :=
  List.find (fun kv => p (fst kv) (snd kv)) (map_to_list t).

(** [User.findOne({ where })]. *)
Definition User_findOne (p : User -> bool) (db : Db) : option User + DbError :=
  if available db then inl (snd <$> findRow (fun _ u => p u) (users db))
  else inr ConnectionError.

(** [User.findByPk(id)]: [id] is compared with a [UUID] column, so the
    store has to read it as one. *)
Definition User_findByPk `{Postgres} (i : string) (db : Db)
  : option User + DbError :=
  if available db then
    match uuid_in i with
    | Some k => inl (users db !! k)
    | None => inr (DatabaseError "id")
    end
  else inr ConnectionError.

Definition taken (p : User -> bool) (db : Db) : bool :=
  bool_decide (is_Some (findRow (fun _ u => p u) (users db))).

(** [User.create(values)]: attribute validation, the [beforeCreate]
    hook, then the insert under the unique indexes of the table. *)
Definition User_create `{Bcrypt} `{Validator} (ctx : Ctx)
    (username email password : string) (firstName lastName : option string)
    (db : Db) : User * Db + DbError :=
  let user :=
    {| id := uuid ctx; username := username; email := email;
       password := password; firstName := firstName; lastName := lastName;
       isActive := true; lastLogin := None;
       UserModel.createdAt := now ctx; UserModel.updatedAt := now ctx |} in
  if negb (validUsername username) then inr (ValidationError "username")
  else if negb (isEmail email) then inr (ValidationError "email")
  else
    let user := beforeCreate (salt ctx) user in
    if negb (available db) then inr ConnectionError
    else if bool_decide (is_Some (users db !! uuid ctx))
    then inr (UniqueConstraintError "id")
    else if taken (fun u => String.eqb (UserModel.username u) username) db
    then inr (UniqueConstraintError "username")
    else if taken (fun u => String.eqb (UserModel.email u) email) db
    then inr (UniqueConstraintError "email")
    else inl (user, withUsers (<[uuid ctx := user]> (users db)) db).

(** The two patches the controllers apply with [user.update(values)]. *)
Inductive UserPatch :=
| PatchLastLogin (t : Z)
| PatchPassword (p : string).

(** [user.update(values)]: set the values, run [beforeUpdate] with
    [changed('password')] as Sequelize computes it (the new value differs
    from the one the instance held), then write the row. *)
Definition User_update `{Bcrypt} (ctx : Ctx) (user : User) (patch : UserPatch)
    (db : Db) : User * Db + DbError :=
  let changedPassword :=
    match patch with
    | PatchPassword p => negb (String.eqb p (password user))
    | PatchLastLogin _ => false
    end in
  let user1 :=
    match patch with
    | PatchPassword p => setPassword p user
    | PatchLastLogin t => setLastLogin t user
    end in
  let user2 := setUpdatedAt (now ctx) (beforeUpdate changedPassword (salt ctx) user1) in
  if negb (available db) then inr ConnectionError
  else inl (user2, withUsers (<[id user := user2]> (users db)) db).

(** [SearchHistory.create(values)]. The model declares no validators, so
    the values are judged by the columns: [mediaType] arrives as the
    string of the query and has to be a value of the enumeration, [query]
    goes into a [DataTypes.STRING], a [VARCHAR(255)], and [resultCount]
    has to fit an [INTEGER]. [userId] is the id of [req.user], a row of
    [users]. *)
Definition SearchHistory_create (ctx : Ctx) (userId query : string)
    (filters : list (string * string)) (mediaType : string) (resultCount : Z)
    (db : Db) : Db + DbError :=
  if negb (available db) then inr ConnectionError
  else
    match parseMediaType mediaType with
    | None => inr (DatabaseError "mediaType")
    | Some mt =>
        match varchar 255 query with
        | None => inr (DatabaseError "query")
        | Some stored =>
            if negb (int4 resultCount)
            then inr (DatabaseError "resultCount")
            else if bool_decide (is_Some (search_histories db !! uuid ctx))
            then inr (UniqueConstraintError "id")
            else
              let row :=
                {| userId := userId; query := stored; filters := filters;
                   mediaType := mt; resultCount := resultCount;
                   SearchHistoryModel.createdAt := now ctx;
                   SearchHistoryModel.updatedAt := now ctx |} in
              inl (withHistories (<[uuid ctx := row]> (search_histories db)) db)
        end
    end.

(** [SearchHistory.findOne({ where: { id, userId } })]: [id] is compared
    with a [UUID] column, so the store has to read it as one; [userId] is
    the id of [req.user]. *)
Definition SearchHistory_findOne `{Postgres} (i owner : string) (db : Db)
  : option (string * SearchHistory) + DbError :=
  if negb (available db) then inr ConnectionError
  else
    match uuid_in i with
    | None => inr (DatabaseError "id")
    | Some k =>
        match search_histories db !! k with
        | Some row =>
            if String.eqb (userId row) owner then inl (Some (k, row))
            else inl None
        | None => inl None
        end
    end.

(** [searchItem.destroy()]: delete the row with the instance's key. *)
Definition SearchHistory_destroyRow (item : string * SearchHistory) (db : Db)
  : Db + DbError :=
  if negb (available db) then inr ConnectionError
  else inl (withHistories (delete (fst item) (search_histories db)) db).

(** [SearchHistory.destroy({ where: { userId } })]. *)
Definition SearchHistory_destroyWhere (owner : string) (db : Db)
  : Db + DbError :=
  if negb (available db) then inr ConnectionError
  else
    inl (withHistories
           (filter (fun kv => userId (snd kv) <> owner) (search_histories db))
           db).

(** Newest first. *)
Definition newerFirst (a b : string * SearchHistory) : Prop :=
  (SearchHistoryModel.createdAt (snd b) <= SearchHistoryModel.createdAt (snd a))%Z.

Global Instance newerFirst_dec a b : Decision (newerFirst a b).
Proof. unfold newerFirst. apply _. Defined.

(** [SearchHistory.findAndCountAll({ where: { userId }, order:
    [['createdAt', 'DESC']], limit, offset })]. A negative [limit] or
    [offset] is rejected by the database. *)
Definition SearchHistory_findAndCountAll (owner : string) (limit offset : Z)
    (db : Db) : Z * list (string * SearchHistory) + DbError :=
  if negb (available db) then inr ConnectionError
  else if (limit <? 0)%Z then inr (DatabaseError "limit")
  else if (offset <? 0)%Z then inr (DatabaseError "offset")
  else
    let mine :=
      List.filter (fun kv => String.eqb (userId (snd kv)) owner)
                  (map_to_list (search_histories db)) in
    let sorted := merge_sort newerFirst mine in
    inl (Z.of_nat (length mine),
         take (Z.to_nat limit) (drop (Z.to_nat offset) sorted)).

End Database.

(** ** HTTP responses *)

Module Http.

(** [res.status(code).json(body)]; [res.json(body)] answers 200. *)
Record Response (B : Type) := {
  status : Z;
  body : B
}.
Arguments status {B} _.
Arguments body {B} _.

Definition respond {B} (code : Z) (b : B) : Response B :=
  {| status := code; body := b |}.

Definition json {B} (b : B) : Response B := respond 200 b.

End Http.

(** ** middlewares/authMiddleware.ts *)

Module AuthMiddleware.
Import UserModel Database.

(** The library behind [import jwt from 'jsonwebtoken'], with the server's
    secret: [sign id now] issues a token for [{ id }]; [verify token now]
    gives the [id] of the payload, or [None] where the library throws a
    [JsonWebTokenError] (malformed, tampered or expired). *)
Class Jwt := {
  sign : string -> Z -> string;
  verify : string -> Z -> option string
}.

(** What a middleware does with a request: answer it, or call [next()]
    with [req.user] and [req.token] as it leaves them. *)
Inductive Outcome :=
| Respond (status : Z) (message : string)
| Next (user : option User) (token : option string).

(** [authHeader.split(' ')[1]]. *)
Definition bearerToken (authHeader : string) : option string :=
  Js.split " " authHeader !! 1%nat.

Definition authenticate `{Jwt} `{Postgres} (now : Z)
    (authorization : option string) (db : Db) : Outcome :=
  match authorization with
  | None => Respond 401 "Authentication required"
  | Some authHeader =>
      if negb (Js.truthy authHeader) || negb (Js.startsWith "Bearer " authHeader)
      then Respond 401 "Authentication required"
      else
        match bearerToken authHeader with
        | None => Respond 401 "Invalid token format"
        | Some token =>
            if negb (Js.truthy token) then Respond 401 "Invalid token format"
            else
              match verify token now with
              | None => Respond 401 "Invalid token"
              | Some decodedId =>
                  match User_findByPk decodedId db with
                  | inr _ => Respond 500 "Authentication error"
                  | inl None => Respond 401 "User not found"
                  | inl (Some user) =>
                      if negb (isActive user)
                      then Respond 403 "Account is disabled"
                      else Next (Some user) (Some token)
                  end
              end
        end
  end.

Definition optionalAuth `{Jwt} `{Postgres} (now : Z)
    (authorization : option string) (db : Db) : Outcome :=
  match authorization with
  | None => Next None None
  | Some authHeader =>
      if negb (Js.truthy authHeader) || negb (Js.startsWith "Bearer " authHeader)
      then Next None None
      else
        match bearerToken authHeader with
        | None => Next None None
        | Some token =>
            if negb (Js.truthy token) then Next None None
            else
              match verify token now with
              | None => Next None None
              | Some decodedId =>
                  match User_findByPk decodedId db with
                  | inl (Some user) =>
                      if isActive user then Next (Some user) (Some token)
                      else Next None None
                  | _ => Next None None
                  end
              end
        end
  end.

(** The spec's "valid bearer credential": the header starts with
    [Bearer ], its second blank-separated word is not empty, and the
    library verifies that word; the result is the word and the user id it
    binds. *)
Definition validBearer `{Jwt} (now : Z) (authorization : option string)
  : option (string * string) :=
  match authorization with
  | None => None
  | Some authHeader =>
      if Js.startsWith "Bearer " authHeader then
        match bearerToken authHeader with
        | Some token =>
            if Js.truthy token
            then (fun decodedId => (token, decodedId)) <$> verify token now
            else None
        | None => None
        end
      else None
  end.

End AuthMiddleware.

(** ** controllers/authController.ts *)

Module AuthController.
Import UserModel Database AuthMiddleware Http.

Inductive Body :=
| Errors (errors : list string)
| Message (message : string)
| TokenAndUser (token : string) (user : gmap string Value)
| CurrentUser (user : gmap string Value)
| Token (token : string).

(** The serialised user of a response body, if it has one. *)
Definition userOf (b : Body) : option (gmap string Value) :=
  match b with
  | TokenAndUser _ u => Some u
  | CurrentUser u => Some u
  | _ => None
  end.

(** [generateToken(userId)]. *)
Definition generateToken `{Jwt} (now : Z) (userId : string) : string :=
  sign userId now.

Definition serverError : Response Body := respond 500 (Message "Server error").

Definition sameEmailOrUsername (email username : string) (u : User) : bool :=
  String.eqb (UserModel.email u) email || String.eqb (UserModel.username u) username.

(** The operator symbols of Sequelize, of which [register] names [or]. *)
Inductive Op := Op_or.

(** [sequelize.Op]. The file imports [sequelize] from config/database,
    the instance made there by [new Sequelize(...)]; [Op] is a property of
    the class, which an instance of Sequelize 6 does not carry, so the
    expression is [undefined]. *)
Definition sequelize_Op : option Op := None.

(** [register]: [errors] is [validationResult(req).array()], the other
    arguments are the fields of [req.body]. Building the [where] clause
    reads [sequelize.Op.or]; on [undefined] that throws a [TypeError]
    inside the [try], which the [catch] answers. *)
Definition register `{Bcrypt} `{Validator} `{Jwt} (ctx : Ctx)
    (errors : list string)
    (username email password : string) (firstName lastName : option string)
    (db : Db) : Response Body * Db :=
  match errors with
  | _ :: _ => (respond 400 (Errors errors), db)
  | [] =>
      match sequelize_Op with
      | None => (serverError, db)
      | Some Op_or =>
          match User_findOne (sameEmailOrUsername email username) db with
          | inr _ => (serverError, db)
          | inl (Some _) => (respond 400 (Message "User already exists"), db)
          | inl None =>
              match User_create ctx username email password firstName lastName
                      db with
              | inr _ => (serverError, db)
              | inl (user, db1) =>
                  let token := generateToken (now ctx) (id user) in
                  match User_update ctx user (PatchLastLogin (now ctx)) db1 with
                  | inr _ => (serverError, db1)
                  | inl (user', db2) =>
                      (respond 201 (TokenAndUser token (toJSON user')), db2)
                  end
              end
          end
      end
  end.

Definition login `{Bcrypt} `{Jwt} (ctx : Ctx) (errors : list string)
    (email password : string) (db : Db) : Response Body * Db :=
  match errors with
  | _ :: _ => (respond 400 (Errors errors), db)
  | [] =>
      match User_findOne (fun u => String.eqb (UserModel.email u) email) db with
      | inr _ => (serverError, db)
      | inl None => (respond 401 (Message "Invalid credentials"), db)
      | inl (Some user) =>
          if negb (isActive user)
          then (respond 403 (Message "Account is disabled"), db)
          else if negb (comparePassword user password)
          then (respond 401 (Message "Invalid credentials"), db)
          else
            let token := generateToken (now ctx) (id user) in
            match User_update ctx user (PatchLastLogin (now ctx)) db with
            | inr _ => (serverError, db)
            | inl (user', db') => (json (TokenAndUser token (toJSON user')), db')
            end
      end
  end.

Definition getCurrentUser (user : option User) : Response Body :=
  match user with
  | None => respond 401 (Message "Authentication required")
  | Some u => json (CurrentUser (toJSON u))
  end.

Definition changePassword `{Bcrypt} (ctx : Ctx) (errors : list string)
    (user : option User) (currentPassword newPassword : string) (db : Db)
  : Response Body * Db :=
  match errors with
  | _ :: _ => (respond 400 (Errors errors), db)
  | [] =>
      match user with
      | None => (respond 401 (Message "Authentication required"), db)
      | Some u =>
          if negb (comparePassword u currentPassword)
          then (respond 401 (Message "Current password is incorrect"), db)
          else
            match User_update ctx u (PatchPassword newPassword) db with
            | inr _ => (serverError, db)
            | inl (_, db') => (json (Message "Password updated successfully"), db')
            end
      end
  end.

(** [logout]: the token is dropped by the client alone. *)
Definition logout : Response Body := json (Message "Logged out successfully").

Definition refreshToken `{Jwt} (now : Z) (user : option User) : Response Body :=
  match user with
  | None => respond 401 (Message "Authentication required")
  | Some u => json (Token (generateToken now (id u)))
  end.

End AuthController.

(** ** controllers/searchController.ts *)

Module SearchController.
Import UserModel SearchHistoryModel Database Http.

(** A value of the search parameters sent upstream. *)
Inductive QVal :=
| QString (s : string)
| QNumber (n : Z)
| QBool (b : bool).

(** [filterMappings]. *)
Definition filterMappings (key : string) : option string :=
  if String.eqb key "licenseType" then Some "license_type"
  else if String.eqb key "aspectRatio" then Some "aspect_ratio"
  else if String.eqb key "filterDead" then Some "filter_dead"
  else None.

(** [filterMappings[key] || key]. *)
Definition apiKey (key : string) : string :=
  match filterMappings key with
  | Some k => k
  | None => key
  end.

Definition processedValue (value : string) : QVal :=
  if String.eqb value "true" then QBool true
  else if String.eqb value "false" then QBool false
  else QString value.

(** [formatFilters(filters)]: the entries in order, a later entry
    overwriting an earlier one with the same upstream name. *)
Definition formatFilters (filters : list (string * string)) : gmap string QVal :=
  fold_left (fun formatted kv => <[apiKey (fst kv) := processedValue (snd kv)]> formatted)
            filters ∅.

(** [{ q: query, page: Number(page), page_size: Number(pageSize),
    ...formatFilters(filters) }]. *)
Definition buildSearchParams (query : string) (page pageSize : Z)
    (filters : list (string * string)) : gmap string QVal :=
  formatFilters filters ∪
  <["q" := QString query]>
    (<["page" := QNumber page]> (<["page_size" := QNumber pageSize]> ∅)).

Section Handlers.
(** A media item as the upstream API returns it. *)
Context {Item : Type}.

(** [SearchResult<T>]. *)
Record SearchResult := {
  result_count : Z;
  page_count : Z;
  page_size : Z;
  page : Z;
  results : list Item
}.

(** A settled promise of the upstream client and when it settled. *)
Record Settled := {
  settledAt : Z;
  result : SearchResult + Openverse.JsError
}.

(** [openverseAPI], as the controller sees it. *)
Record Api := {
  searchImages : gmap string QVal -> Settled;
  searchAudio : gmap string QVal -> Settled
}.

(** The calls a handler issued on [openverseAPI], in order. *)
Inductive ApiCall :=
| SearchImages (params : gmap string QVal)
| SearchAudio (params : gmap string QVal).

(** The error a [catch] block reports with its message. *)
Inductive Cause :=
| Upstream (e : Openverse.JsError)
| Store (e : DbError).

Inductive Body :=
| Errors (errors : list string)
| Message (message : string)
| Failure (message : string) (error : Cause)
| Results (r : SearchResult)
| History (total page pageSize : Z) (pages : option Z)
          (history : list (string * SearchHistory)).

(** [await Promise.all([a, b])]: both values, or the rejection that
    settles first. *)
Definition promiseAll (a b : Settled)
  : SearchResult * SearchResult + Openverse.JsError :=
  match result a, result b with
  | inl ra, inl rb => inl (ra, rb)
  | inr ea, inl _ => inr ea
  | inl _, inr eb => inr eb
  | inr ea, inr eb => if (settledAt b <? settledAt a)%Z then inr eb else inr ea
  end.

(** The object built in the [default] branch of the [switch]. *)
Definition combine (imageResults audioResults : SearchResult)
    (page pageSize : Z) : SearchResult :=
  {| result_count := result_count imageResults + result_count audioResults;
     page_count := Z.max (page_count imageResults) (page_count audioResults);
     page_size := pageSize;
     page := page;
     results := results imageResults ++ results audioResults |}.

(** The [switch (mediaType)]: the calls it issues and what it leaves in
    [results] and [resultCount]. *)
Definition runSearch (api : Api) (mediaType : string)
    (searchParams : gmap string QVal) (page pageSize : Z)
  : list ApiCall * (SearchResult * Z + Openverse.JsError) :=
  if String.eqb mediaType "image" then
    ([SearchImages searchParams],
     match result (searchImages api searchParams) with
     | inl r => inl (r, result_count r)
     | inr e => inr e
     end)
  else if String.eqb mediaType "audio" then
    ([SearchAudio searchParams],
     match result (searchAudio api searchParams) with
     | inl r => inl (r, result_count r)
     | inr e => inr e
     end)
  else
    ([SearchImages searchParams; SearchAudio searchParams],
     match promiseAll (searchImages api searchParams)
                      (searchAudio api searchParams) with
     | inl (imageResults, audioResults) =>
         inl (combine imageResults audioResults page pageSize,
              (result_count imageResults + result_count audioResults)%Z)
     | inr e => inr e
     end).

(** [searchMedia]: [errors] is [validationResult(req).array()]; [query],
    [page], [pageSize], [mediaType] and [filters] are the fields of
    [req.query], with [None] for an absent one; [user] is [req.user]. *)
Definition searchMedia (api : Api) (ctx : Ctx) (errors : list string)
    (user : option User) (query : string) (page pageSize : option Z)
    (mediaType : option string) (filters : list (string * string))
    (db : Db) : Response Body * Db * list ApiCall :=
  match errors with
  | _ :: _ => (respond 400 (Errors errors), db, [])
  | [] =>
      let page := default 1%Z page in
      let pageSize := default 20%Z pageSize in
      let mediaType := default "all" mediaType in
      let searchParams := buildSearchParams query page pageSize filters in
      match runSearch api mediaType searchParams page pageSize with
      | (calls, inr e) =>
          (respond 500 (Failure "Search failed" (Upstream e)), db, calls)
      | (calls, inl (results, resultCount)) =>
          match user with
          | Some u =>
              match SearchHistory_create ctx (id u) query filters mediaType
                                         resultCount db with
              | inl db' => (json (Results results), db', calls)
              | inr e =>
                  (respond 500 (Failure "Search failed" (Store e)), db, calls)
              end
          | None => (json (Results results), db, calls)
          end
      end
  end.

(** [Math.ceil(count / pageSizeNum)] as it is serialised: a division by
    zero gives [Infinity] or [NaN], which JSON writes as [null]. *)
Definition pagesOf (count pageSizeNum : Z) : option Z :=
  if (pageSizeNum =? 0)%Z then None
  else Some (- ((- count) / pageSizeNum))%Z.

Definition getSearchHistory (user : option User) (page pageSize : option Z)
    (db : Db) : Response Body :=
  match user with
  | None => respond 401 (Message "Authentication required")
  | Some u =>
      let pageNum := default 1%Z page in
      let pageSizeNum := default 20%Z pageSize in
      match SearchHistory_findAndCountAll (id u) pageSizeNum
              ((pageNum - 1) * pageSizeNum)%Z db with
      | inl (count, rows) =>
          json (History count pageNum pageSizeNum (pagesOf count pageSizeNum) rows)
      | inr e =>
          respond 500 (Failure "Failed to get search history" (Store e))
      end
  end.

Definition deleteSearchHistoryItem `{Postgres} (user : option User)
    (i : string) (db : Db) : Response Body * Db :=
  match user with
  | None => (respond 401 (Message "Authentication required"), db)
  | Some u =>
      match SearchHistory_findOne i (id u) db with
      | inr e =>
          (respond 500 (Failure "Failed to delete search history item" (Store e)), db)
      | inl None => (respond 404 (Message "Search history item not found"), db)
      | inl (Some searchItem) =>
          match SearchHistory_destroyRow searchItem db with
          | inl db' => (json (Message "Search history item deleted"), db')
          | inr e =>
              (respond 500 (Failure "Failed to delete search history item" (Store e)), db)
          end
      end
  end.

Definition clearSearchHistory (user : option User) (db : Db)
  : Response Body * Db :=
  match user with
  | None => (respond 401 (Message "Authentication required"), db)
  | Some u =>
      match SearchHistory_destroyWhere (id u) db with
      | inl db' => (json (Message "Search history cleared"), db')
      | inr e =>
          (respond 500 (Failure "Failed to clear search history" (Store e)), db)
      end
  end.

End Handlers.

Arguments SearchResult : clear implicits.
Arguments Settled : clear implicits.
Arguments Api : clear implicits.
Arguments Body : clear implicits.

End SearchController.

(** ** controllers/searchController.ts: details and related media *)

Module MediaController.
Import Http.

Section Handlers.
Context {Item : Type}.

(** [openverseAPI], as these two handlers see it: how each call settles. *)
Record MediaApi := {
  getImageDetails : string -> Item + Openverse.JsError;
  getAudioDetails : string -> Item + Openverse.JsError;
  getRelatedImages : string -> SearchController.SearchResult Item + Openverse.JsError;
  getRelatedAudio : string -> SearchController.SearchResult Item + Openverse.JsError
}.

Inductive MediaCall :=
| ImageDetails (i : string)
| AudioDetails (i : string)
| RelatedImages (i : string)
| RelatedAudio (i : string).

Inductive Body :=
| Message (message : string)
| Failure (message : string) (error : Openverse.JsError)
| Details (details : Item)
| Related (related : SearchController.SearchResult Item).

(** [getMediaDetails]: [i] and [type] are [req.params.id] and
    [req.params.type]. *)
Definition getMediaDetails (api : MediaApi) (i type : string)
  : Response Body * list MediaCall :=
  if negb (Js.truthy i) || negb (Js.truthy type)
  then (respond 400 (Message "Media ID and type are required"), [])
  else if String.eqb type "image" then
    let calls := [ImageDetails i] in
     match getImageDetails api i with
     | inl details => (json (Details details), calls)
     | inr e => (respond 500 (Failure "Failed to get media details" e), calls)
     end
  else if String.eqb type "audio" then
    let calls := [AudioDetails i] in
     match getAudioDetails api i with
     | inl details => (json (Details details), calls)
     | inr e => (respond 500 (Failure "Failed to get media details" e), calls)
     end
  else (respond 400 (Message "Invalid media type"), []).

Definition getRelatedMedia (api : MediaApi) (i type : string)
  : Response Body * list MediaCall :=
  if negb (Js.truthy i) || negb (Js.truthy type)
  then (respond 400 (Message "Media ID and type are required"), [])
  else if String.eqb type "image" then
    let calls := [RelatedImages i] in
     match getRelatedImages api i with
     | inl related => (json (Related related), calls)
     | inr e => (respond 500 (Failure "Failed to get related media" e), calls)
     end
  else if String.eqb type "audio" then
    let calls := [RelatedAudio i] in
     match getRelatedAudio api i with
     | inl related => (json (Related related), calls)
     | inr e => (respond 500 (Failure "Failed to get related media" e), calls)
     end
  else (respond 400 (Message "Invalid media type"), []).

End Handlers.

Arguments MediaApi : clear implicits.
Arguments Body : clear implicits.

End MediaController.

(** ** middlewares/errorHandler.ts *)

Module ErrorHandler.
Import Http.

(** An [Error] or [ApiError] as the handler reads it: [statusCode] is
    there on an [ApiError] only, [stack] where the runtime recorded one. *)
Record Err := {
  message : string;
  statusCode : option Z;
  stack : option string
}.

(** [new ApiError(message, statusCode = 500)]. *)
Definition ApiError (msg : string) (code : option Z) (st : option string) : Err :=
  {| message := msg; statusCode := Some (default 500%Z code); stack := st |}.

(** The [error] object of the answer. *)
Record ErrorBody := {
  errorMessage : string;
  errorStatus : Z;
  errorStack : option string
}.

(** [errorHandler]; [production] is [process.env.NODE_ENV === 'production']. *)
Definition errorHandler (production : bool) (err : Err) : Response ErrorBody :=
  let code := default 500%Z (statusCode err) in
  let msg := if Js.truthy (message err) then message err
             else "Internal server error" in
  respond code
    {| errorMessage := msg; errorStatus := code;
       errorStack := if production then None else stack err |}.

(** [notFoundHandler] hands this error to [next]. *)
Definition notFoundHandler (originalUrl : string) (st : option string) : Err :=
  ApiError ("Not Found - " +:+ originalUrl) (Some 404%Z) st.

(** [rateLimitHandler] hands this error to [next]. *)
Definition rateLimitHandler (st : option string) : Err :=
  ApiError "Too many requests, please try again later." (Some 429%Z) st.

End ErrorHandler.

(** ** Concrete data for the runs below *)

Module Samples.
Import Openverse.

Definition reply {A} (lat : Z) (o : A + JsError) : Reply A :=
  {| latency := lat; outcome := o |}.

Definition token (t : string) (ttl : Z) : TokenResponse :=
  {| access_token := t; expires_in := ttl |}.

Definition rejected (st : Z) (d : option string) : JsError :=
  AxiosError (Some {| status := st; detail := d |}).

Definition statsConfig : AxiosRequestConfig :=
  {| method := "GET"; url := API_BASE_URL +:+ "/stats/"; params := ∅;
     timeout := TIMEOUT; headers := ∅ |}.

(** A client whose token was dropped while its expiry lies ahead. *)
Definition invalidated : Client :=
  {| accessToken := None; tokenExpiresAt := 2000000 |}.

Definition world (t : Z) (te : list (Reply TokenResponse))
    (g : list (Reply string)) : World string :=
  {| clock := t; tokenEndpoint := te; gate := g; trace := [];
     throttle := idle |}.

(** A client holding a token that is good until 5000. *)
Definition warm : Client :=
  {| accessToken := Some "old"; tokenExpiresAt := 5000 |}.

Definition unauthorized : ErrorResponse :=
  {| status := 401; detail := Some "Invalid token" |}.

(** Stand-ins for the libraries, enough to run the handlers. *)
Definition demoBcrypt : UserModel.Bcrypt :=
  {| UserModel.hash := fun p _ => String "#" p;
     UserModel.compare := fun candidate stored =>
                            String.eqb stored (String "#" candidate) |}.

Definition demoValidator : UserModel.Validator :=
  {| UserModel.isEmail := fun s => bool_decide (is_Some (String.index 0 "@" s));
     UserModel.isLength := fun s lo hi =>
       (lo <=? Database.char_length s)%nat
       && (Database.char_length s <=? hi)%nat |}.

(** The sample store names its rows by short words: a text of at most
    eight characters is read as the key it spells, a longer one is no
    key. *)
Definition demoPostgres : Database.Postgres :=
  {| Database.uuid_in := fun s =>
       if (String.length s <=? 8)%nat then Some s else None |}.

Definition demoJwt : AuthMiddleware.Jwt :=
  {| AuthMiddleware.sign := fun i _ => "jwt." +:+ i;
     AuthMiddleware.verify := fun tok _ =>
       if String.prefix "jwt." tok
       then Some (String.substring 4 (String.length tok - 4) tok)
       else None |}.

Definition person (i name mail pw : string) (active : bool) : UserModel.User :=
  {| UserModel.id := i; UserModel.username := name; UserModel.email := mail;
     UserModel.password := pw;
     UserModel.firstName := None; UserModel.lastName := None;
     UserModel.isActive := active; UserModel.lastLogin := None;
     UserModel.createdAt := 10; UserModel.updatedAt := 10 |}.

Definition alice : UserModel.User :=
  person "u-alice" "alice" "alice@example.org" "#wonderland" true.
Definition bob : UserModel.User :=
  person "u-bob" "bobby" "bob@example.org" "#builder" true.
Definition carol : UserModel.User :=
  person "u-carol" "carol" "carol@example.org" "#singer" false.

Definition past (owner q : string) (t : Z) : SearchHistoryModel.SearchHistory :=
  {| SearchHistoryModel.userId := owner; SearchHistoryModel.query := q;
     SearchHistoryModel.filters := [];
     SearchHistoryModel.mediaType := SearchHistoryModel.all;
     SearchHistoryModel.resultCount := 3;
     SearchHistoryModel.createdAt := t; SearchHistoryModel.updatedAt := t |}.

Definition db0 : Database.Db :=
  {| Database.available := true;
     Database.users :=
       <["u-alice" := alice]> (<["u-bob" := bob]> (<["u-carol" := carol]> ∅));
     Database.search_histories :=
       <["h1" := past "u-alice" "cats" 100]>
       (<["h2" := past "u-bob" "dogs" 200]>
       (<["h3" := past "u-alice" "owls" 300]> ∅)) |}.

(** Dave as [ctx1] and the password [hunter2] create him. *)
Definition dave : UserModel.User :=
  {| UserModel.id := "u-dave"; UserModel.username := "dave";
     UserModel.email := "dave@example.org"; UserModel.password := "#hunter2";
     UserModel.firstName := None; UserModel.lastName := None;
     UserModel.isActive := true; UserModel.lastLogin := None;
     UserModel.createdAt := 7000; UserModel.updatedAt := 7000 |}.

Definition ctx1 : Database.Ctx :=
  {| Database.now := 7000; Database.uuid := "u-dave"; Database.salt := "pepper" |}.

Definition ctx0 : Database.Ctx :=
  {| Database.now := 5000; Database.uuid := "h9"; Database.salt := "salt" |}.

(** The row a search of [owner] for [q], of every media type and without
    filters, leaves behind at [ctx] when it had [n] results. *)
Definition recorded (ctx : Database.Ctx) (owner q : string) (n : Z)
  : SearchHistoryModel.SearchHistory :=
  {| SearchHistoryModel.userId := owner; SearchHistoryModel.query := q;
     SearchHistoryModel.filters := [];
     SearchHistoryModel.mediaType := SearchHistoryModel.all;
     SearchHistoryModel.resultCount := n;
     SearchHistoryModel.createdAt := Database.now ctx;
     SearchHistoryModel.updatedAt := Database.now ctx |}.

Definition found (n pages : Z) (items : list string)
  : SearchController.SearchResult string :=
  {| SearchController.result_count := n; SearchController.page_count := pages;
     SearchController.page_size := 20; SearchController.page := 1;
     SearchController.results := items |}.

(** An upstream with five images on two pages and three sounds on one. *)
Definition api0 : SearchController.Api string :=
  {| SearchController.searchImages := fun _ =>
       {| SearchController.settledAt := 70;
          SearchController.result :=
            inl (found 5 2 ["i1"; "i2"; "i3"; "i4"; "i5"]) |};
     SearchController.searchAudio := fun _ =>
       {| SearchController.settledAt := 90;
          SearchController.result := inl (found 3 1 ["a1"; "a2"; "a3"]) |} |}.

(** The same upstream with the audio search down. *)
Definition apiAudioDown : SearchController.Api string :=
  {| SearchController.searchImages := SearchController.searchImages api0;
     SearchController.searchAudio := fun _ =>
       {| SearchController.settledAt := 90;
          SearchController.result := inr (rejected 503 None) |} |}.

(** A cold client in front of an endpoint and a gate that answer. *)
Definition coldStart : Client * World string :=
  (newClient,
   world 1000 [reply 40 (inl (token "new" 3600))]
     [reply 120 (inl "first"); reply 130 (inl "second")]).

Definition imagesConfig : AxiosRequestConfig :=
  {| method := "GET"; url := API_BASE_URL +:+ "/images/"; params := ∅;
     timeout := TIMEOUT; headers := ∅ |}.

(** The gate after the one request it started at [t], which settled
    [lat] milliseconds later. *)
Definition started (t lat : Z) (r : string + JsError) : Throttle string :=
  {| lastArgs := None; lastCallTime := Some t; lastInvokeTime := t;
     timerId := Some (t + 1000)%Z;
     result := Some {| settlesAt := t + lat; settlement := r |} |}.

End Samples.

(** * Properties *)

(** ** The upstream client *)

Section ClientFacts.
Context {T : Type}.
Import Openverse.

Lemma cachedToken_Some (c : Client) (now : Z) (tok : string) :
  accessToken c = Some tok ->
  Js.truthy tok = true ->
  (now < tokenExpiresAt c)%Z ->
  cachedToken c now = Some tok.
Proof.
  intros Hc Ht Hlt. unfold cachedToken. rewrite Hc, Ht. simpl.
  apply Z.ltb_lt in Hlt. now rewrite Hlt.
Qed.

Lemma cachedToken_None (c : Client) (now : Z) :
  accessToken c = None \/ accessToken c = Some EmptyString
  \/ (tokenExpiresAt c <= now)%Z ->
  cachedToken c now = None.
Proof.
  unfold cachedToken. intros [H | [H | H]].
  - now rewrite H.
  - now rewrite H.
  - destruct (accessToken c) as [tok|]; [|reflexivity].
    apply Z.ltb_ge in H. rewrite H. now rewrite andb_false_r.
Qed.

Lemma getAccessToken_hit (c : Client) (w : World T) (tok : string) :
  cachedToken c (clock w) = Some tok ->
  getAccessToken (c, w) = (inl tok, (c, w)).
Proof.
  intros H. unfold getAccessToken, bind, getClient, dateNow. simpl.
  now rewrite H.
Qed.

Lemma getAccessToken_miss (c : Client) (w : World T) (lat : Z)
    (response : TokenResponse) (rest : list (Reply TokenResponse)) :
  cachedToken c (clock w) = None ->
  tokenEndpoint w = {| latency := lat; outcome := inl response |} :: rest ->
  getAccessToken (c, w)
  = (inl (access_token response),
     ({| accessToken := Some (access_token response);
         tokenExpiresAt :=
           clock w + lat + expires_in response * 1000 - 300000 |},
      {| clock := clock w + lat; tokenEndpoint := rest; gate := gate w;
         trace := trace w ++ [TokenExchange]; throttle := throttle w |})).
Proof.
  intros Hc He. unfold getAccessToken, bind, getClient, dateNow. simpl.
  rewrite Hc. unfold tryCatch, bind, axiosPostToken. rewrite He. reflexivity.
Qed.

Lemma getAccessToken_fail (c : Client) (w : World T) :
  cachedToken c (clock w) = None ->
  (forall r rest, tokenEndpoint w = r :: rest -> exists e, outcome r = inr e) ->
  exists w', getAccessToken (c, w)
    = (inr (Error "Authentication with Openverse API failed"), (c, w'))
    /\ trace w' = trace w ++ [TokenExchange].
Proof.
  intros Hc He. unfold getAccessToken, bind, getClient, dateNow. simpl.
  rewrite Hc. unfold tryCatch, bind, axiosPostToken.
  destruct (tokenEndpoint w) as [|r rest] eqn:E.
  - simpl. eexists. split; reflexivity.
  - destruct (He r rest eq_refl) as [e Hr]. rewrite Hr.
    eexists. split; reflexivity.
Qed.

Lemma gateCalls_app (l1 l2 : list Event) :
  gateCalls (l1 ++ l2) = (gateCalls l1 + gateCalls l2)%nat.
Proof. unfold gateCalls. now rewrite List.filter_app, length_app. Qed.

(** A gate without a running timer, or whose timer is not yet due, has
    nothing to catch up on. *)
Lemma runTimers_no_timer (fuel : nat) (time : Z) (w : World T) :
  timerId (throttle w) = None -> runTimers fuel time w = w.
Proof. intros H. destruct fuel; simpl; [reflexivity|now rewrite H]. Qed.

Lemma runTimers_not_due (fuel : nat) (time due : Z) (w : World T) :
  timerId (throttle w) = Some due -> (time < due)%Z ->
  runTimers fuel time w = w.
Proof.
  intros H Hlt. destruct fuel; simpl; [reflexivity|]. rewrite H.
  apply Z.leb_gt in Hlt. now rewrite Hlt.
Qed.

(** A timer that expires and is set again reaches the trailing edge the
    next time, so two rounds of [runTimers] are all there are. *)
Lemma timerExpired_twice (due : Z) (w : World T) (due' : Z) :
  timerId (throttle (timerExpired due w)) = Some due' ->
  timerId (throttle (timerExpired due' (timerExpired due w))) = None.
Proof.
  intros H.
  assert (Hs : shouldInvoke due' (throttle (timerExpired due w)) = true).
  { unfold timerExpired in *.
    destruct (shouldInvoke due (throttle w)) eqn:Hs.
    - unfold trailingEdge in H. destruct (lastArgs (throttle w)); discriminate.
    - simpl in H. injection H as <-.
      unfold shouldInvoke in Hs.
      destruct (lastCallTime (throttle w)) as [lc|] eqn:Hlc; [|discriminate].
      apply orb_false_iff in Hs. destruct Hs as [Hs H3].
      apply orb_false_iff in Hs. destruct Hs as [H1 H2].
      apply Z.leb_gt in H1, H3. apply Z.ltb_ge in H2.
      unfold shouldInvoke, remainingWait. simpl. rewrite Hlc.
      apply orb_true_iff.
      destruct (Z.le_ge_cases (WAIT - (due - lc))
                  (WAIT - (due - lastInvokeTime (throttle w)))) as [Hle|Hle].
      + left. apply orb_true_iff. left. apply Z.leb_le. lia.
      + right. apply Z.leb_le. lia. }
  unfold timerExpired at 1. rewrite Hs. unfold trailingEdge.
  destruct (lastArgs (throttle (timerExpired due w))); reflexivity.
Qed.

Lemma runTimers_S (fuel : nat) (time : Z) (w : World T) :
  runTimers (S fuel) time w
  = match timerId (throttle w) with
    | Some due =>
        if (due <=? time)%Z then runTimers fuel time (timerExpired due w)
        else w
    | None => w
    end.
Proof. reflexivity. Qed.

Lemma runTimers_fuel (fuel : nat) (time : Z) (w : World T) :
  runTimers (S (S fuel)) time w = runTimers 2 time w.
Proof.
  rewrite !(runTimers_S _ time w).
  destruct (timerId (throttle w)) as [due|]; [|reflexivity].
  destruct (due <=? time)%Z; [|reflexivity].
  rewrite !(runTimers_S _ time (timerExpired due w)).
  destruct (timerId (throttle (timerExpired due w))) as [due'|] eqn:H1;
    [|reflexivity].
  destruct (due' <=? time)%Z; [|reflexivity].
  apply runTimers_no_timer. now apply timerExpired_twice.
Qed.

(** The leading edge: a gate at rest starts the request at once and the
    caller waits for its reply. *)
Lemma throttledRequest_leading (config : AxiosRequestConfig) (c : Client)
    (w : World T) :
  timerId (throttle w) = None ->
  shouldInvoke (clock w) (throttle w) = true ->
  (0 <= latency (hd timedOut (gate w)))%Z ->
  throttledRequest config (c, w)
  = (outcome (hd timedOut (gate w)),
     (c, {| clock := clock w + latency (hd timedOut (gate w));
            tokenEndpoint := tokenEndpoint w;
            gate := tail (gate w);
            trace := trace w ++ [GateCall config];
            throttle :=
              {| lastArgs := None;
                 lastCallTime := Some (clock w);
                 lastInvokeTime := clock w;
                 timerId := Some (clock w + WAIT)%Z;
                 result :=
                   Some {| settlesAt := clock w + latency (hd timedOut (gate w));
                           settlement := outcome (hd timedOut (gate w)) |} |} |})).
Proof.
  intros Ht Hs Hlat. unfold throttledRequest, debounced.
  rewrite (runTimers_no_timer _ _ _ Ht), Hs, Ht. simpl.
  rewrite Z.max_r by lia. reflexivity.
Qed.

(** Inside the window: no request is started, the caller is handed the
    promise of the request before, and the configuration stays behind for
    the timer. *)
Lemma throttledRequest_inside (config : AxiosRequestConfig) (c : Client)
    (w : World T) (due lc : Z) (p : Promise T) :
  timerId (throttle w) = Some due -> (clock w < due)%Z ->
  lastCallTime (throttle w) = Some lc ->
  (0 <= clock w - lc < WAIT)%Z ->
  (clock w - lastInvokeTime (throttle w) < WAIT)%Z ->
  result (throttle w) = Some p ->
  (settlesAt p <= clock w)%Z ->
  throttledRequest config (c, w)
  = (settlement p,
     (c, setThrottle
           {| lastArgs := Some config;
              lastCallTime := Some (clock w);
              lastInvokeTime := lastInvokeTime (throttle w);
              timerId := Some due;
              result := Some p |} w)).
Proof.
  intros Ht Hdue Hlc Hwin Hinv Hres Hp. unfold throttledRequest, debounced.
  rewrite (runTimers_not_due _ _ _ _ Ht Hdue).
  unfold shouldInvoke. rewrite Hlc.
  assert (H1 : (WAIT <=? clock w - lc)%Z = false) by (apply Z.leb_gt; lia).
  assert (H2 : (clock w - lc <? 0)%Z = false) by (apply Z.ltb_ge; lia).
  assert (H3 : (WAIT <=? clock w - lastInvokeTime (throttle w))%Z = false)
    by (apply Z.leb_gt; lia).
  rewrite H1, H2, H3, Ht, Hres. simpl.
  rewrite Z.max_l by lia. reflexivity.
Qed.

End ClientFacts.

Section ClientClaims.
Context {T : Type}.
Import Openverse.

(** C1 (as the code has it). [getAccessToken()] returns the cached token
    whenever a non-empty token is cached and the current time is strictly
    before the cached expiry, with no outbound call and no change of the
    client. In every other case (no token, an empty token, or the expiry
    reached) it performs exactly one token exchange and, when the exchange
    succeeds after [lat] milliseconds, caches the token with expiry
    [issue time + expires_in * 1000 - 300000], the issue time being the
    clock when the reply arrives. A later call made before that expiry
    then returns the same token with no outbound call, provided the token
    is non-empty. *)
Theorem getAccessToken_cache (c : Client) (w : World T) :
  (forall tok,
      accessToken c = Some tok ->
      Js.truthy tok = true ->
      (clock w < tokenExpiresAt c)%Z ->
      getAccessToken (c, w) = (inl tok, (c, w)))
  /\
  (forall lat response rest,
      accessToken c = None \/ accessToken c = Some EmptyString
      \/ (tokenExpiresAt c <= clock w)%Z ->
      tokenEndpoint w = {| latency := lat; outcome := inl response |} :: rest ->
      let c' := {| accessToken := Some (access_token response);
                   tokenExpiresAt :=
                     clock w + lat + expires_in response * 1000 - 300000 |} in
      let w' := {| clock := clock w + lat; tokenEndpoint := rest;
                   gate := gate w;
                   trace := trace w ++ [TokenExchange];
                   throttle := throttle w |} in
      getAccessToken (c, w) = (inl (access_token response), (c', w'))
      /\
      (Js.truthy (access_token response) = true ->
       forall later : World T,
         (clock later < tokenExpiresAt c')%Z ->
         getAccessToken (c', later)
         = (inl (access_token response), (c', later)))).
Proof.
  split.
  - intros tok Hc Ht Hlt.
    apply getAccessToken_hit. now apply cachedToken_Some.
  - intros lat response rest Hmiss Hte c' w'. split.
    + apply getAccessToken_miss; [|exact Hte].
      now apply cachedToken_None.
    + intros Ht later Hlt.
      apply getAccessToken_hit. now apply cachedToken_Some.
Qed.

(** C2 (what the code does instead). A request goes out with a usable
    cached token through a gate at rest and is rejected with a 401 or 403
    response after [lat1] milliseconds; the client drops the token and
    obtains a fresh one in [lat] milliseconds. When both together took
    less than the gate's one second, the retry is not sent: the gate hands
    the retry the promise of the first request, so [makeRequest] throws the
    first rejection as it is, with one request sent in all and every further
    reply of the upstream API unread. The retry's configuration, whose
    [Authorization] header is [Bearer] followed by the fresh token, stays
    behind in the gate for its timer, which is due one second after the
    first request; nobody awaits what that request will give. *)
Theorem makeRequest_retry_inside_window (config : AxiosRequestConfig)
    (c : Client) (w : World T) (tok : string)
    (lat1 : Z) (response1 : ErrorResponse) (g : list (Reply T))
    (lat : Z) (fresh : TokenResponse) (te : list (Reply TokenResponse)) :
  cachedToken c (clock w) = Some tok ->
  timerId (throttle w) = None ->
  shouldInvoke (clock w) (throttle w) = true ->
  gate w = {| latency := lat1;
              outcome := inr (AxiosError (Some response1)) |} :: g ->
  status response1 = 401%Z \/ status response1 = 403%Z ->
  tokenEndpoint w = {| latency := lat; outcome := inl fresh |} :: te ->
  (0 <= lat1)%Z -> (0 <= lat)%Z -> (lat1 + lat < WAIT)%Z ->
  let c2 := {| accessToken := Some (access_token fresh);
               tokenExpiresAt :=
                 clock w + lat1 + lat + expires_in fresh * 1000 - 300000 |} in
  let pending :=
    {| method := method config; url := url config; params := params config;
       timeout := timeout config;
       headers := <["Authorization" := "Bearer " +:+ access_token fresh]>
                    (headers config) |} in
  let w2 := {| clock := clock w + lat1 + lat;
               tokenEndpoint := te;
               gate := g;
               trace := trace w ++ [GateCall (withBearer config tok);
                                    TokenExchange];
               throttle :=
                 {| lastArgs := Some pending;
                    lastCallTime := Some (clock w + lat1 + lat)%Z;
                    lastInvokeTime := clock w;
                    timerId := Some (clock w + WAIT)%Z;
                    result :=
                      Some {| settlesAt := clock w + lat1;
                              settlement :=
                                inr (AxiosError (Some response1)) |} |} |} in
  makeRequest config (c, w) = (inr (AxiosError (Some response1)), (c2, w2))
  /\ gateCalls (trace w2) = S (gateCalls (trace w))
  /\ headers pending !! "Authorization"
     = Some ("Bearer " +:+ access_token fresh).
Proof.
  intros Hc Ht Hs Hg Hst Hte Hlat1 Hlat Hwin c2 pending w2.
  split; [|split].
  - unfold makeRequest, tryCatch, attempt, createAuthenticatedConfig.
    unfold bind at 1. unfold bind at 1.
    rewrite (getAccessToken_hit c w tok Hc). unfold ret.
    rewrite throttledRequest_leading by (rewrite ?Hg; simpl; assumption).
    rewrite Hg. cbn [hd tail outcome latency].
    unfold onRequestError.
    assert (Hb : ((status response1 =? 401)%Z || (status response1 =? 403)%Z)
                 = true) by (destruct Hst as [-> | ->]; reflexivity).
    rewrite Hb. unfold bind at 1. unfold setAccessToken.
    unfold attempt, createAuthenticatedConfig.
    unfold bind at 1. unfold bind at 1.
    erewrite getAccessToken_miss; [|reflexivity|exact Hte].
    unfold ret. cbn [clock gate trace throttle tokenEndpoint].
    erewrite throttledRequest_inside;
      [|reflexivity|simpl; unfold WAIT in *; lia|reflexivity
       |simpl; unfold WAIT in *; lia|simpl; unfold WAIT in *; lia
       |reflexivity|simpl; lia].
    unfold c2, w2, pending, setThrottle, withBearer. simpl.
    rewrite <- app_assoc. repeat f_equal; lia.
  - unfold w2. simpl. rewrite gateCalls_app. unfold gateCalls at 2. simpl. lia.
  - unfold pending. simpl. apply lookup_insert_eq.
Qed.

End ClientClaims.

Section ClientRuns.
Import Openverse Samples.

(** C1, as stated, fails twice. After an invalidation the expiry still
    lies ahead, yet the call performs a token exchange; and when the
    endpoint hands out an empty token, the next call, made before the
    cached expiry, performs a second exchange. *)
Lemma getAccessToken_exchanges_before_expiry :
  ((clock (world 1000 [reply 40 (inl (token "fresh" 3600))] [])
    < tokenExpiresAt invalidated)%Z
   /\ getAccessToken (invalidated, world 1000 [reply 40 (inl (token "fresh" 3600))] [])
      = (inl "fresh",
         ({| accessToken := Some "fresh"; tokenExpiresAt := 3301040 |},
          {| clock := 1040; tokenEndpoint := []; gate := [];
             trace := [TokenExchange]; throttle := idle |})))
  /\
  (let first :=
     getAccessToken
       (newClient,
        world 1000 [reply 40 (inl (token EmptyString 3600));
                    reply 40 (inl (token "second" 3600))] []) in
   let c1 := fst (snd first) in
   let w1 := snd (snd first) in
   (clock w1 < tokenExpiresAt c1)%Z
   /\ trace w1 = [TokenExchange]
   /\ trace (snd (snd (getAccessToken (c1, w1))))
      = [TokenExchange; TokenExchange]).
Proof. vm_compute. repeat split; reflexivity. Qed.

Lemma getAccessToken_cache_witness :
  (accessToken warm = Some "old"
   /\ Js.truthy "old" = true
   /\ (clock (world 1000 [] []) < tokenExpiresAt warm)%Z
   /\ getAccessToken (warm, world 1000 [] []) = (inl "old", (warm, world 1000 [] [])))
  /\
  ((tokenExpiresAt warm <= clock (world 6000 [reply 40 (inl (token "new" 3600))] []))%Z
   /\ getAccessToken (warm, world 6000 [reply 40 (inl (token "new" 3600))] [])
      = (inl "new",
         ({| accessToken := Some "new"; tokenExpiresAt := 3306040 |},
          {| clock := 6040; tokenEndpoint := []; gate := [];
             trace := [TokenExchange]; throttle := idle |}))
   /\ getAccessToken
        ({| accessToken := Some "new"; tokenExpiresAt := 3306040 |},
         world 3306039 [] [])
      = (inl "new",
         ({| accessToken := Some "new"; tokenExpiresAt := 3306040 |},
          world 3306039 [] []))).
Proof.
  split.
  - split; [reflexivity|]. split; [reflexivity|]. split; [reflexivity|].
    apply (proj1 (getAccessToken_cache warm (world 1000 [] []))); reflexivity.
  - assert (Hle : (tokenExpiresAt warm
                   <= clock (world 6000 [reply 40 (inl (token "new" 3600))] []))%Z)
      by (vm_compute; discriminate).
    destruct (proj2 (getAccessToken_cache
                       warm (world 6000 [reply 40 (inl (token "new" 3600))] []))
                40%Z (token "new" 3600) []
                (or_intror (or_intror Hle)) eq_refl) as [H1 H2].
    split; [exact Hle|]. split; [exact H1|].
    apply (H2 eq_refl (world 3306039 [] [])). reflexivity.
Defined.

(** The first request after start-up is answered 401 after 120 ms and the
    fresh token arrives 40 ms later: the retry, which the upstream API
    would have answered, is never sent, and the caller gets the 401. *)
Lemma makeRequest_retry_inside_window_witness :
  cachedToken warm 1000 = Some "old"
  /\ status unauthorized = 401%Z
  /\ (120 + 40 < WAIT)%Z
  /\ makeRequest statsConfig
       (warm, world 1000 [reply 40 (inl (token "new" 3600))]
                [reply 120 (inr (AxiosError (Some unauthorized)));
                 reply 130 (inl "stats")])
     = (inr (AxiosError (Some unauthorized)),
        ({| accessToken := Some "new"; tokenExpiresAt := 3301160 |},
         {| clock := 1160; tokenEndpoint := [];
            gate := [reply 130 (inl "stats")];
            trace := [GateCall (withBearer statsConfig "old"); TokenExchange];
            throttle :=
              {| lastArgs :=
                   Some {| method := "GET"; url := API_BASE_URL +:+ "/stats/";
                           params := ∅; timeout := TIMEOUT;
                           headers := {["Authorization" := "Bearer new"]} |};
                 lastCallTime := Some 1160%Z;
                 lastInvokeTime := 1000;
                 timerId := Some 2000%Z;
                 result :=
                   Some {| settlesAt := 1120;
                           settlement :=
                             inr (AxiosError (Some unauthorized)) |} |} |})).
Proof.
  split; [reflexivity|]. split; [reflexivity|]. split; [reflexivity|].
  exact (proj1 (makeRequest_retry_inside_window statsConfig warm
                  (world 1000 [reply 40 (inl (token "new" 3600))]
                     [reply 120 (inr (AxiosError (Some unauthorized)));
                      reply 130 (inl "stats")])
                  "old" 120%Z unauthorized [reply 130 (inl "stats")]
                  40%Z (token "new" 3600) []
                  eq_refl eq_refl eq_refl eq_refl (or_introl eq_refl) eq_refl
                  ltac:(discriminate) ltac:(discriminate) eq_refl)).
Defined.

End ClientRuns.

(** ** The search handlers *)

Section SearchFacts.
Context {Item : Type}.
Import SearchHistoryModel Database Http SearchController.

Lemma runSearch_both (api : Api Item) (m : string)
    (params : gmap string QVal) (page pageSize : Z) :
  m <> "image" -> m <> "audio" ->
  runSearch api m params page pageSize
  = ([SearchImages params; SearchAudio params],
     match promiseAll (searchImages api params) (searchAudio api params) with
     | inl (imageResults, audioResults) =>
         inl (combine imageResults audioResults page pageSize,
              (result_count imageResults + result_count audioResults)%Z)
     | inr e => inr e
     end).
Proof.
  intros Hi Ha. unfold runSearch.
  destruct (String.eqb_spec m "image") as [|_]; [contradiction|].
  destruct (String.eqb_spec m "audio") as [|_]; [contradiction|].
  reflexivity.
Qed.

Lemma promiseAll_fulfilled (a b : Settled Item) (ra rb : SearchResult Item) :
  result a = inl ra -> result b = inl rb -> promiseAll a b = inl (ra, rb).
Proof. intros Ha Hb. unfold promiseAll. now rewrite Ha, Hb. Qed.

End SearchFacts.

Section SearchClaims.
Context {Item : Type}.
Import UserModel SearchHistoryModel Database Http SearchController.

(** C3. A search with media type ['all'] whose image search gives
    [imageResults] and whose audio search gives [audioResults] answers
    200 with [result_count] the sum of the two counts, [page_count] the
    larger of the two page counts, and [results] the image results
    followed by the audio results, both searches having been issued. This
    holds for an anonymous caller, and for a signed-in caller whenever the
    store accepts the history row of the search, which is then the one
    change of the store. *)
Theorem searchMedia_all_merges (api : Api Item) (ctx : Ctx)
    (user : option User) (query : string) (page pageSize : option Z)
    (filters : list (string * string)) (db db1 : Db)
    (imageResults audioResults : SearchResult Item) :
  let params :=
    buildSearchParams query (default 1%Z page) (default 20%Z pageSize) filters in
  result (searchImages api params) = inl imageResults ->
  result (searchAudio api params) = inl audioResults ->
  (user = None /\ db1 = db)
  \/ (exists u,
        user = Some u
        /\ SearchHistory_create ctx (id u) query filters "all"
             (result_count imageResults + result_count audioResults) db
           = inl db1) ->
  exists r : SearchResult Item,
    searchMedia api ctx [] user query page pageSize (Some "all") filters db
    = (json (Results r), db1, [SearchImages params; SearchAudio params])
    /\ result_count r
       = (result_count imageResults + result_count audioResults)%Z
    /\ page_count r
       = Z.max (page_count imageResults) (page_count audioResults)
    /\ results r = results imageResults ++ results audioResults.
Proof.
  intros params Hi Ha Hstore.
  unfold searchMedia. fold params. simpl default.
  rewrite runSearch_both by discriminate.
  rewrite (promiseAll_fulfilled _ _ _ _ Hi Ha).
  destruct Hstore as [[-> ->] | (u & -> & Hc)].
  - eexists. split; [reflexivity|]. repeat split.
  - rewrite Hc. eexists. split; [reflexivity|]. repeat split.
Qed.

(** X24. For every media type other than ['image'] and ['audio'],
    [searchMedia] issues the image search and the audio search, as for
    ['all']; and it gives the same answer as for ['all'] when the caller
    is anonymous or the media type is ['video'], the other value the
    history column stores. *)
Theorem searchMedia_other_types_as_all (api : Api Item) (ctx : Ctx)
    (user : option User) (query : string) (page pageSize : option Z)
    (filters : list (string * string)) (db : Db) (m : string) :
  m <> "image" -> m <> "audio" ->
  let params :=
    buildSearchParams query (default 1%Z page) (default 20%Z pageSize) filters in
  snd (searchMedia api ctx [] user query page pageSize (Some m) filters db)
  = [SearchImages params; SearchAudio params]
  /\ (user = None \/ m = "video" ->
      fst (fst (searchMedia api ctx [] user query page pageSize (Some m) filters db))
      = fst (fst (searchMedia api ctx [] user query page pageSize (Some "all")
                    filters db))).
Proof.
  intros Hi Ha params.
  unfold searchMedia. fold params. simpl default.
  rewrite (runSearch_both api m) by assumption.
  rewrite (runSearch_both api "all") by discriminate.
  destruct (promiseAll (searchImages api params) (searchAudio api params))
    as [[imageResults audioResults]|e].
  - split.
    + destruct user as [u|]; [|reflexivity].
      destruct (SearchHistory_create _ _ _ _ m _ _); reflexivity.
    + intros [-> | ->]; [reflexivity|].
      destruct user as [u|]; [|reflexivity].
      unfold SearchHistory_create.
      destruct (available db); [|reflexivity]. simpl.
      destruct (varchar 255 query); [|reflexivity].
      destruct (negb (int4 _)); [reflexivity|].
      destruct (bool_decide _); reflexivity.
  - split; [reflexivity|]. intros _. reflexivity.
Qed.

End SearchClaims.

Section SearchRuns.
Import Database Http SearchController Samples.

(** Alice, signed in, searches for cats: the store takes the row of the
    search under the fresh key. *)
Lemma searchMedia_all_merges_witness :
  result (searchImages api0 (buildSearchParams "cats" 1 20 []))
  = inl (found 5 2 ["i1"; "i2"; "i3"; "i4"; "i5"])
  /\ result (searchAudio api0 (buildSearchParams "cats" 1 20 []))
     = inl (found 3 1 ["a1"; "a2"; "a3"])
  /\ SearchHistory_create ctx0 (UserModel.id alice) "cats" [] "all" (5 + 3) db0
     = inl (withHistories
              (<[uuid ctx0 := recorded ctx0 "u-alice" "cats" 8]>
                 (search_histories db0)) db0)
  /\ exists r : SearchResult string,
       searchMedia api0 ctx0 [] (Some alice) "cats" None None (Some "all") [] db0
       = (json (Results r),
          withHistories
            (<[uuid ctx0 := recorded ctx0 "u-alice" "cats" 8]>
               (search_histories db0)) db0,
          [SearchImages (buildSearchParams "cats" 1 20 []);
           SearchAudio (buildSearchParams "cats" 1 20 [])])
       /\ result_count r = (5 + 3)%Z
       /\ page_count r = Z.max 2 1
       /\ results r = ["i1"; "i2"; "i3"; "i4"; "i5"] ++ ["a1"; "a2"; "a3"].
Proof.
  split; [reflexivity|]. split; [reflexivity|].
  split; [reflexivity|].
  exact (searchMedia_all_merges api0 ctx0 (Some alice) "cats" None None [] db0
           (withHistories
              (<[uuid ctx0 := recorded ctx0 "u-alice" "cats" 8]>
                 (search_histories db0)) db0)
           (found 5 2 ["i1"; "i2"; "i3"; "i4"; "i5"]) (found 3 1 ["a1"; "a2"; "a3"])
           eq_refl eq_refl
           (or_intror (ex_intro _ alice (conj eq_refl eq_refl)))).
Defined.

(** C10 (what the code does instead). Alice, signed in, searches with
    the media type ['podcast'], which is neither ['image'] nor ['audio']:
    both searches are issued, as for ['all'], but the history row is
    refused by the store, whose column has no such value, and the answer
    is 500 "Search failed" with nothing written. The same search with
    ['all'] answers 200 with the merged results, and so does the search
    with ['podcast'] of a caller who is not signed in. *)
Lemma searchMedia_unknown_type_signed_in :
  searchMedia api0 ctx0 [] (Some alice) "cats" None None (Some "podcast") [] db0
  = (respond 500 (Failure "Search failed" (Store (DatabaseError "mediaType"))),
     db0,
     [SearchImages (buildSearchParams "cats" 1 20 []);
      SearchAudio (buildSearchParams "cats" 1 20 [])])
  /\ fst (fst (searchMedia api0 ctx0 [] (Some alice) "cats" None None (Some "all")
                 [] db0))
     = json (Results (found 8 2 ["i1"; "i2"; "i3"; "i4"; "i5"; "a1"; "a2"; "a3"]))
  /\ searchMedia api0 ctx0 [] None "cats" None None (Some "podcast") [] db0
     = (json (Results (found 8 2 ["i1"; "i2"; "i3"; "i4"; "i5"; "a1"; "a2"; "a3"])),
        db0,
        [SearchImages (buildSearchParams "cats" 1 20 []);
         SearchAudio (buildSearchParams "cats" 1 20 [])]).
Proof. repeat split; reflexivity. Qed.

Lemma searchMedia_other_types_as_all_witness :
  "video" <> "image" /\ "video" <> "audio"
  /\ snd (searchMedia api0 ctx0 [] (Some alice) "cats" None None (Some "video") [] db0)
     = [SearchImages (buildSearchParams "cats" 1 20 []);
        SearchAudio (buildSearchParams "cats" 1 20 [])]
  /\ fst (fst (searchMedia api0 ctx0 [] (Some alice) "cats" None None (Some "video")
                 [] db0))
     = fst (fst (searchMedia api0 ctx0 [] (Some alice) "cats" None None (Some "all")
                   [] db0)).
Proof.
  assert (Hi : "video" <> "image") by discriminate.
  assert (Ha : "video" <> "audio") by discriminate.
  destruct (searchMedia_other_types_as_all api0 ctx0 (Some alice) "cats" None None
              [] db0 "video" Hi Ha) as [Hcalls Hsame].
  split; [exact Hi|]. split; [exact Ha|]. split; [exact Hcalls|].
  apply Hsame. right. reflexivity.
Defined.

End SearchRuns.

(** ** Search history is scoped to its owner *)

Section HistoryFacts.
Import UserModel SearchHistoryModel Database Http SearchController.
Context {Item : Type} {pg : Postgres}.

Lemma deleteSearchHistoryItem_cases (A : User) (i : string) (db : Db) :
  (exists k row,
      uuid_in i = Some k
      /\ search_histories db !! k = Some row /\ userId row = id A
      /\ available db = true
      /\ deleteSearchHistoryItem (Item := Item) (Some A) i db
         = (json (Message "Search history item deleted"),
            withHistories (delete k (search_histories db)) db))
  \/ (exists k,
        uuid_in i = Some k
        /\ (search_histories db !! k = None
            \/ exists row, search_histories db !! k = Some row
                           /\ userId row <> id A)
        /\ available db = true
        /\ deleteSearchHistoryItem (Item := Item) (Some A) i db
           = (respond 404 (Message "Search history item not found"), db))
  \/ ((available db = false \/ uuid_in i = None)
      /\ snd (deleteSearchHistoryItem (Item := Item) (Some A) i db) = db
      /\ status (fst (deleteSearchHistoryItem (Item := Item) (Some A) i db))
         = 500%Z).
Proof.
  unfold deleteSearchHistoryItem, SearchHistory_findOne, SearchHistory_destroyRow.
  destruct (available db) eqn:Hav; simpl.
  - destruct (uuid_in i) as [k|] eqn:Hk.
    + destruct (search_histories db !! k) as [row|] eqn:Hrow.
      * destruct (String.eqb_spec (userId row) (id A)) as [Heq|Hne].
        -- left. exists k, row. auto.
        -- right. left. exists k.
           split; [reflexivity|]. split; [right; exists row; auto|]. auto.
      * right. left. exists k. auto.
    + right. right. auto.
  - right. right. auto.
Qed.



End HistoryFacts.

Section HistoryClaims.
Import UserModel SearchHistoryModel Database Http SearchController.
Context {Item : Type} {pg : Postgres}.


End HistoryClaims.

Section HistoryRuns.
Import UserModel SearchHistoryModel Database Http SearchController Samples.


End HistoryRuns.

(** ** Accounts and passwords *)

Section AccountFacts.
Import UserModel Database AuthMiddleware Http AuthController.

Lemma toJSON_password (u : User) : toJSON u !! "password" = None.
Proof. unfold toJSON. apply lookup_delete_eq. Qed.

Lemma register_user_body `{Bcrypt} `{Validator} `{Jwt} (ctx : Ctx)
    (errors : list string) (username email pw : string)
    (firstName lastName : option string) (db : Db) (j : gmap string Value) :
  userOf (body (fst (register ctx errors username email pw firstName lastName db)))
  = Some j ->
  exists u, j = toJSON u.
Proof.
  unfold register. destruct errors; discriminate.
Qed.

Lemma login_user_body `{Bcrypt} `{Jwt} (ctx : Ctx) (errors : list string)
    (email pw : string) (db : Db) (j : gmap string Value) :
  userOf (body (fst (login ctx errors email pw db))) = Some j ->
  exists u, j = toJSON u.
Proof.
  unfold login.
  destruct errors; [|discriminate].
  destruct (User_findOne _ db) as [[user|]|]; try discriminate.
  destruct (negb (isActive user)); [discriminate|].
  destruct (negb (comparePassword user pw)); [discriminate|].
  destruct (User_update _ _ _ _) as [[user' db2]|]; [|discriminate].
  simpl. intros [= <-]. eauto.
Qed.

End AccountFacts.

Section AccountClaims.
Import UserModel Database AuthMiddleware Http AuthController.

(** C5 (what the code does instead). A registration whose request passes
    validation is answered 500 "Server error" and leaves the store as it
    was, whatever the store holds: building the [where] clause of the
    lookup throws before any query is issued. So a registration with an
    e-mail address or a user name that an existing user already has is not
    answered 400 "User already exists"; no row is written, but none is
    written for a free address and name either. *)
Theorem register_server_error `{Bcrypt} `{Validator} `{Jwt} (ctx : Ctx)
    (username email pw : string) (firstName lastName : option string)
    (db : Db) :
  register ctx [] username email pw firstName lastName db
  = (respond 500 (Message "Server error"), db)
  /\ status (fst (register ctx [] username email pw firstName lastName db))
     <> 400%Z.
Proof. split; [reflexivity|discriminate]. Qed.

(** C9. The object [toJSON()] returns has no [password] key, and every
    user object in a response of [register], [login] or [getCurrentUser]
    is such an object. *)
Theorem password_not_serialized `{Bcrypt} `{Validator} `{Jwt} :
  (forall u : User, toJSON u !! "password" = None)
  /\ (forall ctx errors username email pw firstName lastName db j,
         userOf (body (fst (register ctx errors username email pw
                              firstName lastName db))) = Some j ->
         j !! "password" = None)
  /\ (forall ctx errors email pw db j,
         userOf (body (fst (login ctx errors email pw db))) = Some j ->
         j !! "password" = None)
  /\ (forall user j,
         userOf (body (getCurrentUser user)) = Some j ->
         j !! "password" = None).
Proof.
  split; [exact toJSON_password|]. split; [|split].
  - intros ctx errors username email pw firstName lastName db j Hj.
    destruct (register_user_body _ _ _ _ _ _ _ _ _ Hj) as [u ->].
    apply toJSON_password.
  - intros ctx errors email pw db j Hj.
    destruct (login_user_body _ _ _ _ _ _ Hj) as [u ->].
    apply toJSON_password.
  - intros [u|] j; simpl; [|discriminate].
    intros [= <-]. apply toJSON_password.
Qed.

End AccountClaims.

Section PasswordFacts.
Import UserModel Database.

Lemma comparePassword_hashed `{Bcrypt} `{!BcryptLaws} (u : User)
    (p s candidate : string) :
  password u = hash p s ->
  comparePassword u candidate = true <-> candidate = p.
Proof. intros Hp. unfold comparePassword. rewrite Hp. apply compare_hash. Qed.

Lemma User_create_stored `{Bcrypt} `{Validator} (ctx : Ctx)
    (username email pw : string) (firstName lastName : option string)
    (db : Db) (user : User) (db' : Db) :
  User_create ctx username email pw firstName lastName db = inl (user, db') ->
  id user = uuid ctx
  /\ users db' !! uuid ctx = Some user
  /\ password user
     = (if Js.truthy pw then hash pw (salt ctx) else pw).
Proof.
  unfold User_create.
  destruct (negb (validUsername username)); [discriminate|].
  destruct (negb (isEmail email)); [discriminate|].
  destruct (negb (available db)); [discriminate|].
  destruct (bool_decide _); [discriminate|].
  destruct (taken _ db); [discriminate|].
  destruct (taken _ db); [discriminate|].
  intros [= <- <-]. unfold beforeCreate. simpl.
  rewrite lookup_insert_eq.
  destruct (Js.truthy pw); simpl; auto.
Qed.

Lemma User_update_stored `{Bcrypt} (ctx : Ctx) (user : User)
    (patch : UserPatch) (db : Db) (user' : User) (db' : Db) :
  User_update ctx user patch db = inl (user', db') ->
  users db' !! id user = Some user'
  /\ password user'
     = match patch with
       | PatchPassword p =>
           if String.eqb p (password user) then p else hash p (salt ctx)
       | PatchLastLogin _ => password user
       end.
Proof.
  unfold User_update.
  destruct (negb (available db)); [discriminate|].
  intros [= <- <-]. simpl. rewrite lookup_insert_eq. split; [reflexivity|].
  destruct patch as [t|p]; simpl; [reflexivity|].
  destruct (String.eqb p (password user)); reflexivity.
Qed.

End PasswordFacts.

Section PasswordClaims.
Import UserModel Database.

(** C6 (as the code has it). Under the contract of the hashing library, a
    user created with a non-empty password [P] is stored with the hash of
    [P], and [comparePassword] accepts [P] and no other candidate. A later
    update that changes the password to [P2] stores the hash of [P2], which
    accepts [P2] and no other candidate; an update of another attribute
    leaves the stored hash as it is. *)
Theorem password_round_trip `{Bcrypt} `{!BcryptLaws} `{Validator} (ctx : Ctx)
    (username email P : string) (firstName lastName : option string)
    (db : Db) (user : User) (db' : Db) :
  Js.truthy P = true ->
  User_create ctx username email P firstName lastName db = inl (user, db') ->
  (users db' !! id user = Some user
   /\ password user = hash P (salt ctx)
   /\ forall candidate, comparePassword user candidate = true <-> candidate = P)
  /\ (forall ctx2 P2 user2 db2,
         P2 <> password user ->
         User_update ctx2 user (PatchPassword P2) db' = inl (user2, db2) ->
         users db2 !! id user = Some user2
         /\ password user2 = hash P2 (salt ctx2)
         /\ forall candidate,
             comparePassword user2 candidate = true <-> candidate = P2)
  /\ (forall ctx2 t user2 db2,
         User_update ctx2 user (PatchLastLogin t) db' = inl (user2, db2) ->
         password user2 = password user).
Proof.
  intros HP Hcreate.
  destruct (User_create_stored _ _ _ _ _ _ _ _ _ Hcreate) as (Hid & Hrow & Hpw).
  rewrite HP in Hpw. split; [|split].
  - rewrite Hid. split; [exact Hrow|]. split; [exact Hpw|].
    intros candidate. now apply comparePassword_hashed with (s := salt ctx).
  - intros ctx2 P2 user2 db2 Hne Hup.
    destruct (User_update_stored _ _ _ _ _ _ Hup) as (Hrow2 & Hpw2).
    apply String.eqb_neq in Hne. rewrite Hne in Hpw2.
    split; [exact Hrow2|]. split; [exact Hpw2|].
    intros candidate. now apply comparePassword_hashed with (s := salt ctx2).
  - intros ctx2 t user2 db2 Hup.
    destruct (User_update_stored _ _ _ _ _ _ Hup) as (_ & Hpw2). exact Hpw2.
Qed.

End PasswordClaims.

(** ** The authentication middleware *)

Section MiddlewareClaims.
Import UserModel Database AuthMiddleware.

(** C7 (as the code has it). [authenticate] answers 401 when the request
    presents no valid bearer credential and when the user the credential
    names is not in the store; it answers 403 when that user is
    deactivated, and 500 when the lookup of the user fails; otherwise it
    attaches the user and the token and calls [next()]. *)
Theorem authenticate_outcomes `{Jwt} `{Postgres} (now : Z)
    (authorization : option string) (db : Db) :
  match validBearer now authorization with
  | None => exists m, authenticate now authorization db = Respond 401 m
  | Some (token, decodedId) =>
      match User_findByPk decodedId db with
      | inr _ =>
          authenticate now authorization db = Respond 500 "Authentication error"
      | inl None =>
          authenticate now authorization db = Respond 401 "User not found"
      | inl (Some user) =>
          if isActive user
          then authenticate now authorization db = Next (Some user) (Some token)
          else authenticate now authorization db
               = Respond 403 "Account is disabled"
      end
  end.
Proof.
  unfold validBearer, authenticate.
  destruct authorization as [authHeader|]; [|eauto].
  destruct (Js.startsWith "Bearer " authHeader) eqn:Hs.
  - assert (Ht : Js.truthy authHeader = true).
    { destruct authHeader; [discriminate Hs|reflexivity]. }
    rewrite Ht. simpl.
    destruct (bearerToken authHeader) as [token|]; [|eauto].
    destruct (Js.truthy token); simpl; [|eauto].
    destruct (verify token now) as [decodedId|]; simpl; [|eauto].
    destruct (User_findByPk decodedId db) as [[user|]|e]; try reflexivity.
    destruct (isActive user); reflexivity.
  - rewrite orb_true_r. eauto.
Qed.

End MiddlewareClaims.

Section AccountRuns.
Import UserModel Database AuthMiddleware Http AuthController Samples.

Lemma demoBcrypt_laws : @BcryptLaws demoBcrypt.
Proof.
  constructor. intros candidate p s. simpl.
  rewrite String.eqb_eq. split; congruence.
Qed.

(** Alice's address is taken, and a registration with it, valid as a
    request, is answered 500; so is Dave's, whose address and name are
    free. *)
Lemma register_server_error_witness :
  users db0 !! "u-alice" = Some alice
  /\ email alice = "alice@example.org"
  /\ @register demoBcrypt demoValidator demoJwt ctx1 []
       "alice2" "alice@example.org" "pw" None None db0
     = (respond 500 (Message "Server error"), db0)
  /\ @register demoBcrypt demoValidator demoJwt ctx1 []
       "dave" "dave@example.org" "hunter2" None None db0
     = (respond 500 (Message "Server error"), db0).
Proof.
  split; [reflexivity|]. split; [reflexivity|]. split.
  - exact (proj1 (@register_server_error demoBcrypt demoValidator demoJwt ctx1
                    "alice2" "alice@example.org" "pw" None None db0)).
  - apply (@register_server_error demoBcrypt demoValidator demoJwt ctx1
             "dave" "dave@example.org" "hunter2" None None db0).
Defined.

(** Alice signs in: the user object of the answer has no password. *)
Lemma password_not_serialized_witness :
  userOf (body (fst (@login demoBcrypt demoJwt ctx0 []
                       "alice@example.org" "wonderland" db0)))
  = Some (toJSON (setUpdatedAt 5000 (setLastLogin 5000 alice)))
  /\ toJSON (setUpdatedAt 5000 (setLastLogin 5000 alice)) !! "password" = None.
Proof.
  assert (Hbody : userOf (body (fst (@login demoBcrypt demoJwt ctx0 []
                                       "alice@example.org" "wonderland" db0)))
                  = Some (toJSON (setUpdatedAt 5000 (setLastLogin 5000 alice))))
    by (vm_compute; reflexivity).
  split; [exact Hbody|].
  exact (proj1 (proj2 (proj2 (@password_not_serialized
                                demoBcrypt demoValidator demoJwt)))
           ctx0 [] "alice@example.org" "wonderland" db0 _ Hbody).
Defined.

(** C6, as stated, fails for the empty password: the row is stored with
    the empty password itself, not with a hash of it, and the stored
    value, not being a hash, does not verify. *)
Lemma empty_password_stored_unhashed :
  @User_create demoBcrypt demoValidator ctx1
    "dave" "dave@example.org" EmptyString None None db0
  = inl (setPassword EmptyString dave,
         withUsers (<["u-dave" := setPassword EmptyString dave]> (users db0)) db0)
  /\ password (setPassword EmptyString dave) = EmptyString
  /\ @hash demoBcrypt EmptyString "pepper" <> EmptyString
  /\ @comparePassword demoBcrypt (setPassword EmptyString dave) EmptyString
     = false.
Proof.
  split; [vm_compute; reflexivity|]. split; [reflexivity|].
  split; [discriminate|reflexivity].
Qed.

Lemma password_round_trip_witness :
  Js.truthy "hunter2" = true
  /\ @User_create demoBcrypt demoValidator ctx1
       "dave" "dave@example.org" "hunter2" None None db0
     = inl (dave, withUsers (<["u-dave" := dave]> (users db0)) db0)
  /\ password dave = @hash demoBcrypt "hunter2" "pepper"
  /\ (forall candidate,
         @comparePassword demoBcrypt dave candidate = true
         <-> candidate = "hunter2").
Proof.
  assert (Hc : @User_create demoBcrypt demoValidator ctx1
                 "dave" "dave@example.org" "hunter2" None None db0
               = inl (dave, withUsers (<["u-dave" := dave]> (users db0)) db0))
    by (vm_compute; reflexivity).
  split; [reflexivity|]. split; [exact Hc|].
  destruct (@password_round_trip demoBcrypt demoBcrypt_laws demoValidator ctx1
              "dave" "dave@example.org" "hunter2" None None db0 dave _
              eq_refl Hc) as [(_ & Hpw & Hcmp) _].
  split; [exact Hpw|exact Hcmp].
Defined.

(** C7, as stated, fails for a deactivated user: Carol's valid token is
    answered 403, not 401. *)
Lemma authenticate_deactivated_403 :
  users db0 !! "u-carol" = Some carol
  /\ isActive carol = false
  /\ @verify demoJwt "jwt.u-carol" 5000 = Some "u-carol"
  /\ @authenticate demoJwt demoPostgres 5000 (Some "Bearer jwt.u-carol") db0
     = Respond 403 "Account is disabled".
Proof. repeat split. Qed.

End AccountRuns.

(** * Further properties *)

(** ** The upstream client: errors, bounds and token reuse *)

Section ClientMore.
Context {T : Type}.
Import Openverse.

Lemma tokenExchanges_app (l1 l2 : list Event) :
  tokenExchanges (l1 ++ l2) = (tokenExchanges l1 + tokenExchanges l2)%nat.
Proof. unfold tokenExchanges. now rewrite List.filter_app, length_app. Qed.

Lemma cachedToken_accessToken (c : Client) (now : Z) (tok : string) :
  cachedToken c now = Some tok -> accessToken c = Some tok.
Proof.
  unfold cachedToken. destruct (accessToken c) as [tok'|]; [|discriminate].
  destruct (Js.truthy tok' && (now <? tokenExpiresAt c)%Z); congruence.
Qed.

(** What one call of [getAccessToken] adds to the trace, and where the
    token it returns comes from: the cache, or a reply of the token
    endpoint. *)
Lemma getAccessToken_activity (s s' : Client * World T) (r : string + JsError) :
  getAccessToken s = (r, s') ->
  (exists new,
      trace (snd s') = trace (snd s) ++ new
      /\ (new = [] \/ new = [TokenExchange]))
  /\ (forall rp, In rp (tokenEndpoint (snd s')) -> In rp (tokenEndpoint (snd s)))
  /\ (forall tok, r = inl tok ->
        accessToken (fst s) = Some tok
        \/ exists rp response,
             In rp (tokenEndpoint (snd s)) /\ outcome rp = inl response
             /\ access_token response = tok).
Proof.
  destruct s as [c w]. unfold getAccessToken, bind, getClient, dateNow. simpl.
  destruct (cachedToken c (clock w)) as [tok|] eqn:Hc.
  - intros [= <- <-]. split; [|split].
    + exists []. rewrite app_nil_r. auto.
    + auto.
    + intros tok' [= <-]. left. now apply (cachedToken_accessToken c (clock w)).
  - unfold tryCatch, bind, axiosPostToken.
    destruct (tokenEndpoint w) as [|rp rest] eqn:Hte; simpl.
    + intros [= <- <-]. split; [|split].
      * exists [TokenExchange]. auto.
      * simpl. auto.
      * discriminate.
    + destruct (outcome rp) as [response|e] eqn:Ho; simpl; intros [= <- <-];
        (split; [|split]).
      * exists [TokenExchange]. auto.
      * simpl. intros rp' Hin. now right.
      * intros tok [= <-]. right. exists rp, response. simpl. auto.
      * exists [TokenExchange]. auto.
      * simpl. intros rp' Hin. now right.
      * discriminate.
Qed.

(** The timer of the gate only ever adds requests of its own to the
    trace. *)
Lemma timerExpired_activity (due : Z) (w : World T) :
  tokenEndpoint (timerExpired due w) = tokenEndpoint w
  /\ exists tr,
      trace (timerExpired due w) = trace w ++ tr
      /\ Forall (fun ev => exists t cfg, ev = TrailingCall t cfg) tr.
Proof.
  unfold timerExpired. destruct (shouldInvoke due (throttle w)).
  - unfold trailingEdge. destruct (lastArgs (throttle w)) as [cfg|]; simpl.
    + split; [reflexivity|]. exists [TrailingCall due cfg].
      split; [reflexivity|]. constructor; eauto.
    + split; [reflexivity|]. exists []. now rewrite app_nil_r.
  - simpl. split; [reflexivity|]. exists []. now rewrite app_nil_r.
Qed.

Lemma runTimers_activity (fuel : nat) (time : Z) (w : World T) :
  tokenEndpoint (runTimers fuel time w) = tokenEndpoint w
  /\ exists tr,
      trace (runTimers fuel time w) = trace w ++ tr
      /\ Forall (fun ev => exists t cfg, ev = TrailingCall t cfg) tr.
Proof.
  revert w. induction fuel as [|fuel IH]; intros w.
  - simpl. split; [reflexivity|]. exists []. now rewrite app_nil_r.
  - rewrite runTimers_S.
    destruct (timerId (throttle w)) as [due|];
      [|split; [reflexivity|]; exists []; now rewrite app_nil_r].
    destruct (due <=? time)%Z;
      [|split; [reflexivity|]; exists []; now rewrite app_nil_r].
    destruct (IH (timerExpired due w)) as (Hte & tr2 & Htr2 & Hall2).
    destruct (timerExpired_activity due w) as (Hte1 & tr1 & Htr1 & Hall1).
    split; [congruence|]. exists (tr1 ++ tr2).
    rewrite Htr2, Htr1, <- app_assoc. split; [reflexivity|].
    apply Forall_app. auto.
Qed.

(** One call of the gate starts at most one request at once, the one it
    was called with. *)
Lemma throttledRequest_activity (config : AxiosRequestConfig)
    (s s' : Client * World T) (r : T + JsError) :
  throttledRequest config s = (r, s') ->
  tokenEndpoint (snd s') = tokenEndpoint (snd s)
  /\ exists tr,
      Forall (fun ev => exists t cfg, ev = TrailingCall t cfg) tr
      /\ (trace (snd s') = trace (snd s) ++ tr
          \/ trace (snd s') = trace (snd s) ++ tr ++ [GateCall config]).
Proof.
  destruct s as [c w]. unfold throttledRequest, debounced.
  destruct (runTimers_activity 2 (clock w) w) as (Hte & tr & Htr & Hall).
  set (w0 := runTimers 2 (clock w) w) in *.
  cbn [timerId].
  destruct (shouldInvoke (clock w) (throttle w0)).
  - destruct (timerId (throttle w0)); simpl; intros [= <- <-]; simpl;
      (split; [exact Hte|]); exists tr; (split; [exact Hall|]); right;
      rewrite Htr, <- app_assoc; reflexivity.
  - destruct (timerId (throttle w0)); simpl;
      destruct (result (throttle w0)); intros [= <- <-]; simpl;
      (split; [exact Hte|]); exists tr; (split; [exact Hall|]); now left.
Qed.

Lemma trailing_counts (tr : list Event) :
  Forall (fun ev => exists t cfg, ev = TrailingCall t cfg) tr ->
  gateCalls tr = 0%nat /\ tokenExchanges tr = 0%nat
  /\ forall P : Event -> Prop,
      (forall t cfg, P (TrailingCall t cfg)) -> Forall P tr.
Proof.
  induction 1 as [|ev tr (t & cfg & ->) _ (IHg & IHe & IHp)].
  - repeat split. intros; constructor.
  - unfold gateCalls, tokenExchanges in *. simpl. repeat split; auto.
Qed.

(** What one attempt adds to the trace: at most one token exchange and at
    most one request started at once, which is the caller's configuration
    with the bearer token [getAccessToken] returned. *)
Lemma attempt_activity (config : AxiosRequestConfig) (s s' : Client * World T)
    (r : T + JsError) :
  attempt config s = (r, s') ->
  (forall rp, In rp (tokenEndpoint (snd s')) -> In rp (tokenEndpoint (snd s)))
  /\ exists new,
      trace (snd s') = trace (snd s) ++ new
      /\ (gateCalls new <= 1)%nat /\ (tokenExchanges new <= 1)%nat
      /\ Forall (fun ev => forall sent, ev = GateCall sent ->
            exists tok,
              sent = withBearer config tok
              /\ (accessToken (fst s) = Some tok
                  \/ exists rp response,
                       In rp (tokenEndpoint (snd s))
                       /\ outcome rp = inl response
                       /\ access_token response = tok)) new.
Proof.
  unfold attempt, createAuthenticatedConfig. unfold bind at 1. unfold bind at 1.
  destruct (getAccessToken s) as [[tok|e] [c1 w1]] eqn:Htok;
    destruct (getAccessToken_activity _ _ _ Htok)
      as ((new1 & Htr1 & Hnew1) & Hsub1 & Hfrom); simpl in Htr1, Hsub1.
  - unfold ret. intros Hreq.
    destruct (throttledRequest_activity _ _ _ _ Hreq) as (Hte & tr & Hall & Htr).
    simpl in Hte, Htr.
    destruct (trailing_counts tr Hall) as (Hg & He & Hp).
    split; [rewrite Hte; exact Hsub1|].
    assert (H1 : (gateCalls new1 = 0 /\ tokenExchanges new1 <= 1)%nat
                 /\ forall P : Event -> Prop, P TokenExchange -> Forall P new1).
    { destruct Hnew1 as [-> | ->]; unfold gateCalls, tokenExchanges; simpl;
        (split; [lia|]); intros P HP; repeat constructor; exact HP. }
    destruct H1 as ((Hg1 & He1) & Hp1).
    destruct Htr as [Htr | Htr]; rewrite Htr, Htr1, <- app_assoc.
    + exists (new1 ++ tr). split; [reflexivity|].
      rewrite gateCalls_app, tokenExchanges_app.
      split; [lia|]. split; [lia|].
      apply Forall_app. split; [apply Hp1|apply Hp]; discriminate.
    + exists (new1 ++ tr ++ [GateCall (withBearer config tok)]).
      split; [reflexivity|].
      rewrite !gateCalls_app, !tokenExchanges_app.
      unfold gateCalls at 3, tokenExchanges at 3. simpl.
      split; [lia|]. split; [lia|].
      apply Forall_app. split; [apply Hp1; discriminate|].
      apply Forall_app. split; [apply Hp; discriminate|].
      constructor; [|constructor].
      intros sent [= <-]. exists tok. split; [reflexivity|].
      now apply Hfrom.
  - intros [= _ <-]. simpl. split; [exact Hsub1|].
    exists new1. split; [exact Htr1|].
    destruct Hnew1 as [-> | ->]; unfold gateCalls, tokenExchanges; simpl;
      (split; [lia|]); (split; [lia|]); repeat constructor; discriminate.
Qed.

(** X1. One call of [makeRequest] performs at most two token exchanges and
    starts at most two requests; every request it starts is the caller's
    configuration with the header [Authorization: Bearer <token>] put in
    (a header of that name replaced) and nothing else changed, the token
    being the one cached before the call or one a reply of the token
    endpoint carried. Whatever else the trace takes up are requests the
    timer of the gate started on its own, for calls it had held back. *)
Theorem makeRequest_activity (config : AxiosRequestConfig)
    (s s' : Client * World T) (r : T + JsError) :
  makeRequest config s = (r, s') ->
  exists new,
    trace (snd s') = trace (snd s) ++ new
    /\ (gateCalls new <= 2)%nat
    /\ (tokenExchanges new <= 2)%nat
    /\ Forall (fun ev => forall sent, ev = GateCall sent ->
          exists tok,
            (accessToken (fst s) = Some tok
             \/ exists rp response,
                  In rp (tokenEndpoint (snd s)) /\ outcome rp = inl response
                  /\ access_token response = tok)
            /\ headers sent !! "Authorization" = Some ("Bearer " +:+ tok)
            /\ (forall k, k <> "Authorization" ->
                          headers sent !! k = headers config !! k)
            /\ method sent = method config /\ url sent = url config
            /\ params sent = params config
            /\ timeout sent = timeout config) new.
Proof.
  set (Q := fun (s0 : Client * World T) (ev : Event) =>
              forall sent, ev = GateCall sent ->
              exists tok,
                sent = withBearer config tok
                /\ (accessToken (fst s0) = Some tok
                    \/ exists rp response,
                         In rp (tokenEndpoint (snd s0))
                         /\ outcome rp = inl response
                         /\ access_token response = tok)).
  assert (Hweak : forall new, Forall (Q s) new ->
            Forall (fun ev => forall sent, ev = GateCall sent ->
              exists tok,
                (accessToken (fst s) = Some tok
                 \/ exists rp response,
                      In rp (tokenEndpoint (snd s)) /\ outcome rp = inl response
                      /\ access_token response = tok)
                /\ headers sent !! "Authorization" = Some ("Bearer " +:+ tok)
                /\ (forall k, k <> "Authorization" ->
                              headers sent !! k = headers config !! k)
                /\ method sent = method config /\ url sent = url config
                /\ params sent = params config
                /\ timeout sent = timeout config) new).
  { intros new. apply List.Forall_impl. intros ev Hev sent Hsent.
    destruct (Hev sent Hsent) as (tok & -> & Hfrom).
    exists tok. split; [exact Hfrom|]. simpl.
    split; [apply lookup_insert_eq|].
    split; [intros k Hk; apply lookup_insert_ne; congruence|].
    repeat split. }
  unfold makeRequest, tryCatch.
  destruct (attempt config s) as [[d|e] s1] eqn:H1;
    destruct (attempt_activity _ _ _ _ H1)
      as (Hsub1 & new1 & Htr1 & Hg1 & He1 & Hq1); fold (Q s) in Hq1.
  - intros [= <- <-]. exists new1. repeat split; auto; lia.
  - assert (Hstop : forall e', (inr e' : T + JsError, s1) = (r, s') ->
              exists new, trace (snd s') = trace (snd s) ++ new
                /\ (gateCalls new <= 2)%nat /\ (tokenExchanges new <= 2)%nat
                /\ Forall (Q s) new).
    { intros e' [= <- <-]. exists new1. repeat split; auto; lia. }
    assert (Hdone : (exists new, trace (snd s') = trace (snd s) ++ new
                /\ (gateCalls new <= 2)%nat /\ (tokenExchanges new <= 2)%nat
                /\ Forall (Q s) new) ->
              exists new, trace (snd s') = trace (snd s) ++ new
                /\ (gateCalls new <= 2)%nat /\ (tokenExchanges new <= 2)%nat
                /\ Forall (fun ev => forall sent, ev = GateCall sent ->
                     exists tok,
                       (accessToken (fst s) = Some tok
                        \/ exists rp response,
                             In rp (tokenEndpoint (snd s))
                             /\ outcome rp = inl response
                             /\ access_token response = tok)
                       /\ headers sent !! "Authorization"
                          = Some ("Bearer " +:+ tok)
                       /\ (forall k, k <> "Authorization" ->
                                     headers sent !! k = headers config !! k)
                       /\ method sent = method config /\ url sent = url config
                       /\ params sent = params config
                       /\ timeout sent = timeout config) new).
    { intros (new & Htr & Hg & He & Hq). exists new. auto. }
    unfold onRequestError.
    destruct e as [[response|]|m];
      try (unfold throw; intros Hr; apply Hdone, (Hstop _ Hr)).
    destruct ((status response =? 401)%Z || (status response =? 403)%Z).
    + unfold bind at 1. unfold setAccessToken. destruct s1 as [c1 w1].
      intros H2. apply Hdone.
      destruct (attempt_activity _ _ _ _ H2)
        as (_ & new2 & Htr2 & Hg2 & He2 & Hq2).
      simpl in Htr1, Htr2, Hsub1. exists (new1 ++ new2).
      rewrite Htr2, Htr1, <- app_assoc.
      rewrite gateCalls_app, tokenExchanges_app.
      repeat split; [lia|lia|]. apply Forall_app. split; [exact Hq1|].
      revert Hq2. apply List.Forall_impl. intros ev Hev sent Hsent.
      destruct (Hev sent Hsent)
        as (tok & -> & [Hno | (rp & fresh & Hin & Ho & Ha)]).
      * discriminate.
      * exists tok. split; [reflexivity|]. right. exists rp, fresh. auto.
    + destruct (detail response) as [d|];
        [|unfold throw; intros Hr; apply Hdone, (Hstop _ Hr)].
      destruct (Js.truthy d); unfold throw; intros Hr; apply Hdone, (Hstop _ Hr).
Qed.

(** X2. A rejection other than a 401 or 403 response is not retried: the
    client and the world stay as the first attempt left them. A response
    with a non-empty [detail] is rethrown as a plain [Error] whose message
    names the status and the detail; a response without one, a failure
    without response and a plain [Error] are rethrown as they are. *)
Theorem makeRequest_other_errors (config : AxiosRequestConfig)
    (s s1 : Client * World T) (e : JsError) :
  attempt config s = (inr e, s1) ->
  (forall response,
      e = AxiosError (Some response) ->
      status response <> 401%Z /\ status response <> 403%Z) ->
  makeRequest config s
  = (inr match e with
         | AxiosError (Some response) =>
             match detail response with
             | Some d =>
                 if Js.truthy d
                 then Error (apiErrorMessage (status response) d)
                 else e
             | None => e
             end
         | _ => e
         end, s1).
Proof.
  intros H1 Hst. unfold makeRequest, tryCatch. rewrite H1.
  unfold onRequestError.
  destruct e as [[response|]|m]; try reflexivity.
  destruct (Hst response eq_refl) as [H401 H403].
  apply Z.eqb_neq in H401, H403. rewrite H401, H403. simpl.
  destruct (detail response) as [d|]; [|reflexivity].
  destruct (Js.truthy d); reflexivity.
Qed.

(** X3. When no token can be served from the cache and the token exchange
    fails, in whatever way, [makeRequest] throws the plain [Error]
    "Authentication with Openverse API failed", leaves the client as it
    was, and has called the token endpoint once and the gate not at all. *)
Theorem makeRequest_without_token (config : AxiosRequestConfig)
    (c : Client) (w : World T) (e : JsError) :
  cachedToken c (clock w) = None ->
  outcome (hd timedOut (tokenEndpoint w)) = inr e ->
  makeRequest config (c, w)
  = (inr (Error "Authentication with Openverse API failed"),
     (c, {| clock := clock w + latency (hd timedOut (tokenEndpoint w));
            tokenEndpoint := tail (tokenEndpoint w);
            gate := gate w;
            trace := trace w ++ [TokenExchange];
            throttle := throttle w |})).
Proof.
  intros Hc He.
  assert (Htok : getAccessToken (c, w)
            = (inr (Error "Authentication with Openverse API failed"),
               (c, {| clock := clock w + latency (hd timedOut (tokenEndpoint w));
                      tokenEndpoint := tail (tokenEndpoint w);
                      gate := gate w;
                      trace := trace w ++ [TokenExchange];
                      throttle := throttle w |}))).
  { unfold getAccessToken, bind, getClient, dateNow. simpl. rewrite Hc.
    unfold tryCatch, bind, axiosPostToken.
    destruct (tokenEndpoint w) as [|r0 rest]; simpl in *;
      [reflexivity|rewrite He; reflexivity]. }
  unfold makeRequest, tryCatch, attempt, createAuthenticatedConfig.
  unfold bind at 1. unfold bind at 1. rewrite Htok. reflexivity.
Qed.

(** X4. A token whose lifetime is at most the five-minute margin is never
    served from the cache: every later call of [getAccessToken] goes to the
    token endpoint again. *)
Theorem short_lived_token_not_cached (c : Client) (w : World T) (lat : Z)
    (response : TokenResponse) (rest : list (Reply TokenResponse))
    (later : World T) :
  cachedToken c (clock w) = None ->
  tokenEndpoint w = {| latency := lat; outcome := inl response |} :: rest ->
  (expires_in response * 1000 <= 300000)%Z ->
  (clock w + lat <= clock later)%Z ->
  trace (snd (snd (getAccessToken (fst (snd (getAccessToken (c, w))), later))))
  = trace later ++ [TokenExchange].
Proof.
  intros Hc Hte Httl Hlater.
  rewrite (getAccessToken_miss c w lat response rest Hc Hte). simpl.
  match goal with |- context [getAccessToken (?c', later)] =>
    assert (Hmiss : cachedToken c' (clock later) = None) end.
  { unfold cachedToken. simpl.
    assert (Hge : (clock later <? clock w + lat + expires_in response * 1000
                                  - 300000)%Z = false)
      by (apply Z.ltb_ge; lia).
    rewrite Hge. now rewrite andb_false_r. }
  unfold getAccessToken, bind, getClient, dateNow. simpl.
  unfold cachedToken in Hmiss. simpl in Hmiss. unfold cachedToken. simpl.
  rewrite Hmiss.
  unfold tryCatch, bind, axiosPostToken.
  destruct (outcome _); reflexivity.
Qed.

(** X5. Two requests in a row, less than a second apart, share one token
    and one response. The first, finding no usable token, exchanges once
    and is sent with the header [Authorization: Bearer <token>]. The second
    is made when the first has returned, within the gate's one second: it
    performs no token exchange, is not sent, and is answered with the data
    of the first request; its configuration, carrying the same bearer
    token, is left in the gate for the timer. *)
Theorem makeRequest_twice_inside_window (config1 config2 : AxiosRequestConfig)
    (c : Client) (w : World T) (lat : Z) (response : TokenResponse)
    (rest : list (Reply TokenResponse)) (l1 : Z) (d1 : T)
    (g : list (Reply T)) :
  cachedToken c (clock w) = None ->
  tokenEndpoint w = {| latency := lat; outcome := inl response |} :: rest ->
  Js.truthy (access_token response) = true ->
  timerId (throttle w) = None ->
  shouldInvoke (clock w + lat) (throttle w) = true ->
  gate w = {| latency := l1; outcome := inl d1 |} :: g ->
  (0 <= l1 < WAIT)%Z ->
  (l1 < expires_in response * 1000 - 300000)%Z ->
  let c' := {| accessToken := Some (access_token response);
               tokenExpiresAt :=
                 clock w + lat + expires_in response * 1000 - 300000 |} in
  let sent :=
    {| method := method config1; url := url config1; params := params config1;
       timeout := timeout config1;
       headers := <["Authorization" := "Bearer " +:+ access_token response]>
                    (headers config1) |} in
  let pending :=
    {| method := method config2; url := url config2; params := params config2;
       timeout := timeout config2;
       headers := <["Authorization" := "Bearer " +:+ access_token response]>
                    (headers config2) |} in
  let answered :=
    {| settlesAt := clock w + lat + l1; settlement := inl d1 |} in
  makeRequest config1 (c, w)
  = (inl d1,
     (c', {| clock := clock w + lat + l1; tokenEndpoint := rest;
             gate := g;
             trace := trace w ++ [TokenExchange; GateCall sent];
             throttle :=
               {| lastArgs := None;
                  lastCallTime := Some (clock w + lat)%Z;
                  lastInvokeTime := clock w + lat;
                  timerId := Some (clock w + lat + WAIT)%Z;
                  result := Some answered |} |}))
  /\ makeRequest config2 (snd (makeRequest config1 (c, w)))
     = (inl d1,
        (c', {| clock := clock w + lat + l1; tokenEndpoint := rest;
                gate := g;
                trace := trace w ++ [TokenExchange; GateCall sent];
                throttle :=
                  {| lastArgs := Some pending;
                     lastCallTime := Some (clock w + lat + l1)%Z;
                     lastInvokeTime := clock w + lat;
                     timerId := Some (clock w + lat + WAIT)%Z;
                     result := Some answered |} |}))
  /\ headers sent !! "Authorization"
     = Some ("Bearer " +:+ access_token response)
  /\ headers pending !! "Authorization"
     = Some ("Bearer " +:+ access_token response).
Proof.
  intros Hc Hte Htok Ht Hs Hg Hl1 Hexp c' sent pending answered.
  assert (H1 : makeRequest config1 (c, w)
    = (inl d1,
       (c', {| clock := clock w + lat + l1; tokenEndpoint := rest;
               gate := g;
               trace := trace w ++ [TokenExchange; GateCall sent];
               throttle :=
                 {| lastArgs := None;
                    lastCallTime := Some (clock w + lat)%Z;
                    lastInvokeTime := clock w + lat;
                    timerId := Some (clock w + lat + WAIT)%Z;
                    result := Some answered |} |}))).
  { unfold makeRequest, tryCatch, attempt, createAuthenticatedConfig.
    unfold bind at 1. unfold bind at 1.
    rewrite (getAccessToken_miss c w lat response rest Hc Hte). unfold ret.
    rewrite throttledRequest_leading
      by (cbn [clock gate throttle]; rewrite ?Hg; simpl; (assumption || lia)).
    cbn [clock gate throttle trace tokenEndpoint]. rewrite Hg.
    cbn [hd tail outcome latency]. rewrite <- app_assoc. reflexivity. }
  split; [exact H1|]. split.
  - rewrite H1. cbn [snd].
    unfold makeRequest, tryCatch, attempt, createAuthenticatedConfig.
    unfold bind at 1. unfold bind at 1.
    rewrite (getAccessToken_hit c' _ (access_token response))
      by (apply cachedToken_Some; [reflexivity|exact Htok|simpl; lia]).
    unfold ret.
    erewrite throttledRequest_inside;
      [|reflexivity|simpl; unfold WAIT in *; lia|reflexivity
       |simpl; unfold WAIT in *; lia|simpl; unfold WAIT in *; lia
       |reflexivity|simpl; lia].
    reflexivity.
  - split; apply lookup_insert_eq.
Qed.

(** Past the window: the timer has run out with nothing left behind, and
    the gate starts the request at once. *)
Lemma throttledRequest_after_window (config : AxiosRequestConfig) (c : Client)
    (w : World T) (due lc : Z) :
  timerId (throttle w) = Some due -> (due <= clock w)%Z ->
  lastArgs (throttle w) = None ->
  lastCallTime (throttle w) = Some lc ->
  (WAIT <= due - lc)%Z ->
  (0 <= latency (hd timedOut (gate w)))%Z ->
  throttledRequest config (c, w)
  = (outcome (hd timedOut (gate w)),
     (c, {| clock := clock w + latency (hd timedOut (gate w));
            tokenEndpoint := tokenEndpoint w;
            gate := tail (gate w);
            trace := trace w ++ [GateCall config];
            throttle :=
              {| lastArgs := None;
                 lastCallTime := Some (clock w);
                 lastInvokeTime := clock w;
                 timerId := Some (clock w + WAIT)%Z;
                 result :=
                   Some {| settlesAt := clock w + latency (hd timedOut (gate w));
                           settlement := outcome (hd timedOut (gate w)) |} |} |})).
Proof.
  intros Ht Hdue Hargs Hlc Hwait Hlat.
  assert (Hrun : runTimers 2 (clock w) w
                 = setThrottle
                     {| lastArgs := None; lastCallTime := Some lc;
                        lastInvokeTime := lastInvokeTime (throttle w);
                        timerId := None;
                        result := result (throttle w) |} w).
  { rewrite runTimers_S, Ht.
    assert (Hle : (due <=? clock w)%Z = true) by (apply Z.leb_le; lia).
    rewrite Hle.
    assert (Hexp : timerExpired due w
                   = setThrottle
                       {| lastArgs := None; lastCallTime := Some lc;
                          lastInvokeTime := lastInvokeTime (throttle w);
                          timerId := None;
                          result := result (throttle w) |} w).
    { unfold timerExpired, shouldInvoke. rewrite Hlc.
      assert (H1 : (WAIT <=? due - lc)%Z = true) by (apply Z.leb_le; lia).
      rewrite H1. simpl. unfold trailingEdge, withTimer.
      rewrite Hargs, Hlc. reflexivity. }
    rewrite Hexp. apply runTimers_no_timer. reflexivity. }
  unfold throttledRequest, debounced. rewrite Hrun.
  unfold shouldInvoke. cbn [throttle setThrottle lastCallTime timerId].
  assert (H1 : (WAIT <=? clock w - lc)%Z = true) by (apply Z.leb_le; lia).
  rewrite H1. simpl. rewrite Z.max_r by lia. reflexivity.
Qed.

(** X25. The retry as the comment in [makeRequest] has it, past the
    window. A request goes out with a usable cached token through a gate
    at rest and is rejected with a 401 or 403 response; the client drops
    the token and obtains a fresh one. When the rejection and the exchange
    together took a second or more, the gate starts the retry at once: the
    retry carries the header [Authorization: Bearer] with the fresh token,
    [makeRequest] settles the way the retry settles, two requests and one
    token exchange have gone out, and a retry that is rejected is thrown as
    it is, with the response of the second rejection. *)
Theorem makeRequest_retry_after_window (config : AxiosRequestConfig)
    (c : Client) (w : World T) (tok : string)
    (lat1 : Z) (response1 : ErrorResponse) (retry : Reply T) (g : list (Reply T))
    (lat : Z) (fresh : TokenResponse) (te : list (Reply TokenResponse)) :
  cachedToken c (clock w) = Some tok ->
  timerId (throttle w) = None ->
  shouldInvoke (clock w) (throttle w) = true ->
  gate w = {| latency := lat1;
              outcome := inr (AxiosError (Some response1)) |} :: retry :: g ->
  status response1 = 401%Z \/ status response1 = 403%Z ->
  tokenEndpoint w = {| latency := lat; outcome := inl fresh |} :: te ->
  (0 <= lat1)%Z -> (0 <= lat)%Z -> (WAIT <= lat1 + lat)%Z ->
  (0 <= latency retry)%Z ->
  let c2 := {| accessToken := Some (access_token fresh);
               tokenExpiresAt :=
                 clock w + lat1 + lat + expires_in fresh * 1000 - 300000 |} in
  let resent :=
    {| method := method config; url := url config; params := params config;
       timeout := timeout config;
       headers := <["Authorization" := "Bearer " +:+ access_token fresh]>
                    (headers config) |} in
  let w2 := {| clock := clock w + lat1 + lat + latency retry;
               tokenEndpoint := te;
               gate := g;
               trace := trace w ++ [GateCall (withBearer config tok);
                                    TokenExchange; GateCall resent];
               throttle :=
                 {| lastArgs := None;
                    lastCallTime := Some (clock w + lat1 + lat)%Z;
                    lastInvokeTime := clock w + lat1 + lat;
                    timerId := Some (clock w + lat1 + lat + WAIT)%Z;
                    result :=
                      Some {| settlesAt := clock w + lat1 + lat + latency retry;
                              settlement := outcome retry |} |} |} in
  makeRequest config (c, w) = (outcome retry, (c2, w2))
  /\ headers resent !! "Authorization"
     = Some ("Bearer " +:+ access_token fresh)
  /\ (forall response2,
         outcome retry = inr (AxiosError (Some response2)) ->
         fst (makeRequest config (c, w)) = inr (AxiosError (Some response2))).
Proof.
  intros Hc Ht Hs Hg Hst Hte Hlat1 Hlat Hwin Hretry c2 resent w2.
  assert (Hrun : makeRequest config (c, w) = (outcome retry, (c2, w2))).
  { unfold makeRequest, tryCatch, attempt, createAuthenticatedConfig.
    unfold bind at 1. unfold bind at 1.
    rewrite (getAccessToken_hit c w tok Hc). unfold ret.
    rewrite throttledRequest_leading by (rewrite ?Hg; simpl; assumption).
    rewrite Hg. cbn [hd tail outcome latency].
    unfold onRequestError.
    assert (Hb : ((status response1 =? 401)%Z || (status response1 =? 403)%Z)
                 = true) by (destruct Hst as [-> | ->]; reflexivity).
    rewrite Hb. unfold bind at 1. unfold setAccessToken.
    unfold attempt, createAuthenticatedConfig.
    unfold bind at 1. unfold bind at 1.
    erewrite getAccessToken_miss; [|reflexivity|exact Hte].
    unfold ret. cbn [clock gate trace throttle tokenEndpoint].
    erewrite throttledRequest_after_window;
      [|reflexivity|simpl; lia|reflexivity|reflexivity|lia|simpl; lia].
    cbn [clock gate trace throttle tokenEndpoint hd tail].
    unfold c2, w2, resent, withBearer. rewrite <- !app_assoc.
    reflexivity. }
  split; [exact Hrun|]. split; [apply lookup_insert_eq|].
  intros response2 H2. rewrite Hrun. exact H2.
Qed.

End ClientMore.

(** ** The middlewares: the header and the optional variant *)

Section MiddlewareMore.
Import UserModel Database AuthMiddleware.

Lemma splitAux_word (c : ascii) (s cur : string) :
  ~ In c (list_ascii_of_string s) ->
  Js.splitAux c s cur = [String.rev_app cur s]
  /\ forall rest,
      Js.splitAux c (s +:+ String c rest) cur
      = String.rev_app cur s :: Js.splitAux c rest EmptyString.
Proof.
  revert cur. induction s as [|a s IH]; intros cur Hno; simpl.
  - split; [reflexivity|]. intros rest. now rewrite Ascii.eqb_refl.
  - simpl in Hno.
    destruct (Ascii.eqb_spec a c) as [->|Hne]; [tauto|].
    apply IH. tauto.
Qed.

(** The word after [Bearer ], up to the next blank, is the token. *)
Lemma bearerToken_word (token : string) :
  ~ In " "%char (list_ascii_of_string token) ->
  bearerToken ("Bearer " +:+ token) = Some token
  /\ forall junk,
      bearerToken ("Bearer " +:+ token +:+ String " " junk) = Some token.
Proof.
  intros Hno.
  destruct (splitAux_word " " token EmptyString Hno) as [H1 H2].
  split.
  - change (bearerToken ("Bearer " +:+ token))
      with (Js.splitAux " " token EmptyString !! 0%nat).
    now rewrite H1.
  - intros junk.
    change (bearerToken ("Bearer " +:+ token +:+ String " " junk))
      with (Js.splitAux " " (token +:+ String " " junk) EmptyString !! 0%nat).
    now rewrite H2.
Qed.

(** X6. A header [Bearer <token>], the token a word without blanks, is
    judged by that token alone: [authenticate] gives the header the outcome
    it gives the credential [verify] reads from the token, and whatever
    follows a further blank is ignored. *)
Theorem authenticate_reads_bearer_word `{Jwt} `{Postgres} (now : Z)
    (token junk : string) (db : Db) :
  ~ In " "%char (list_ascii_of_string token) ->
  validBearer now (Some ("Bearer " +:+ token))
  = (if Js.truthy token
     then (fun decodedId => (token, decodedId)) <$> verify token now
     else None)
  /\ authenticate now (Some ("Bearer " +:+ token +:+ String " " junk)) db
     = authenticate now (Some ("Bearer " +:+ token)) db.
Proof.
  intros Hno. destruct (bearerToken_word token Hno) as [H1 H2].
  assert (Hs : forall rest, Js.startsWith "Bearer " ("Bearer " +:+ rest) = true)
    by (intros [|a rest]; reflexivity).
  assert (Ht : forall rest, Js.truthy ("Bearer " +:+ rest) = true)
    by reflexivity.
  split.
  - unfold validBearer. rewrite Hs, H1. reflexivity.
  - unfold authenticate. rewrite !Hs, !Ht, H1, (H2 junk). reflexivity.
Qed.

(** X7. [optionalAuth] never answers the request itself. It hands on the
    user and the token exactly when [authenticate] would let the request
    pass, and hands on an anonymous request in every case in which
    [authenticate] would answer 401, 403 or 500. *)
Theorem optionalAuth_follows_authenticate `{Jwt} `{Postgres} (now : Z)
    (authorization : option string) (db : Db) :
  match authenticate now authorization db with
  | Next user token => optionalAuth now authorization db = Next user token
  | Respond _ _ => optionalAuth now authorization db = Next None None
  end.
Proof.
  unfold authenticate, optionalAuth.
  destruct authorization as [authHeader|]; [|reflexivity].
  destruct (negb (Js.truthy authHeader) || negb (Js.startsWith "Bearer " authHeader));
    [reflexivity|].
  destruct (bearerToken authHeader) as [token|]; [|reflexivity].
  destruct (negb (Js.truthy token)); [reflexivity|].
  destruct (verify token now) as [decodedId|]; [|reflexivity].
  destruct (User_findByPk decodedId db) as [[user|]|e]; try reflexivity.
  destruct (isActive user); reflexivity.
Qed.

End MiddlewareMore.

(** ** Accounts: what the handlers write and when *)

Section AccountMore.
Import UserModel Database AuthMiddleware Http AuthController.

(** A branch that answers with another status and writes nothing. *)
Ltac no_write :=
  simpl; split; [reflexivity|];
  split; [first [reflexivity|assumption]|]; split; [reflexivity|];
  let Hx := fresh in intros Hx; discriminate Hx.

Lemma findRow_Some {A} (p : string -> A -> bool) (t : gmap string A)
    (k : string) (x : A) :
  findRow p t = Some (k, x) -> t !! k = Some x /\ p k x = true.
Proof.
  unfold findRow. intros Hf. apply find_some in Hf. destruct Hf as [Hin Hp].
  split; [|exact Hp]. now apply elem_of_map_to_list, list_elem_of_In.
Qed.

(** X9. [login] answers 200 only for a stored, active user whose stored
    password the candidate verifies against; then it writes that user's row
    with the new last login, the stored password untouched, and nothing
    else. In every other case it writes nothing. *)
Theorem login_effects `{Bcrypt} `{Jwt} (ctx : Ctx) (errors : list string)
    (email pw : string) (db : Db) :
  let out := login ctx errors email pw db in
  search_histories (snd out) = search_histories db
  /\ available (snd out) = available db
  /\ (status (fst out) <> 200%Z -> snd out = db)
  /\ (status (fst out) = 200%Z ->
      exists k u,
        users db !! k = Some u
        /\ UserModel.email u = email
        /\ isActive u = true
        /\ comparePassword u pw = true
        /\ users (snd out)
           = <[id u := setUpdatedAt (now ctx) (setLastLogin (now ctx) u)]> (users db)
        /\ password (setUpdatedAt (now ctx) (setLastLogin (now ctx) u)) = password u
        /\ fst out
           = json (TokenAndUser (sign (id u) (now ctx))
                     (toJSON (setUpdatedAt (now ctx) (setLastLogin (now ctx) u))))).
Proof.
  unfold login.
  destruct errors as [|e errors];
    [|no_write].
  unfold User_findOne.
  destruct (available db) eqn:Hav;
    [|no_write].
  destruct (findRow _ (users db)) as [[k u]|] eqn:Hfind; simpl;
    [|no_write].
  destruct (isActive u) eqn:Hact; simpl;
    [|no_write].
  destruct (comparePassword u pw) eqn:Hcmp; simpl;
    [|no_write].
  unfold User_update. rewrite Hav. simpl.
  split; [reflexivity|]. split; [exact Hav|].
  split; [intros Hne; now contradiction Hne|]. intros _.
  apply findRow_Some in Hfind. destruct Hfind as [Hk He]. simpl in He.
  apply String.eqb_eq in He.
  exists k, u. repeat split; auto.
Qed.

(** X11. [changePassword] with a wrong current password answers 401 and
    writes nothing. With the right one (and a new password that differs
    from the stored value) it stores the hash of the new password, after
    which the new password verifies and no other candidate does, the old
    password included when it differs from the new one. *)
Theorem changePassword_effects `{Bcrypt} `{!BcryptLaws} (ctx : Ctx) (u : User)
    (currentPassword newPassword : string) (db : Db) :
  (comparePassword u currentPassword = false ->
   changePassword ctx [] (Some u) currentPassword newPassword db
   = (respond 401 (Message "Current password is incorrect"), db))
  /\ (comparePassword u currentPassword = true ->
      available db = true ->
      newPassword <> password u ->
      exists u',
        changePassword ctx [] (Some u) currentPassword newPassword db
        = (json (Message "Password updated successfully"),
           withUsers (<[id u := u']> (users db)) db)
        /\ id u' = id u
        /\ password u' = hash newPassword (salt ctx)
        /\ (forall candidate,
               comparePassword u' candidate = true <-> candidate = newPassword)).
Proof.
  unfold changePassword. split.
  - intros ->. reflexivity.
  - intros -> Hav Hne. simpl. unfold User_update. rewrite Hav. simpl.
    apply String.eqb_neq in Hne. rewrite Hne. simpl.
    eexists. split; [reflexivity|]. split; [reflexivity|].
    split; [reflexivity|].
    intros candidate.
    now apply comparePassword_hashed with (s := salt ctx).
Qed.

End AccountMore.

(** ** The search handlers: parameters and writes *)

Section FilterMore.
Import SearchController.

Lemma formatFilters_snoc (fs : list (string * string)) (k v : string) :
  formatFilters (fs ++ [(k, v)])
  = <[apiKey k := processedValue v]> (formatFilters fs).
Proof. unfold formatFilters. now rewrite fold_left_app. Qed.

Lemma apiKey_renamed (k : string) :
  apiKey k <> "licenseType" /\ apiKey k <> "aspectRatio"
  /\ apiKey k <> "filterDead".
Proof.
  unfold apiKey, filterMappings.
  destruct (String.eqb_spec k "licenseType") as [->|H1];
    [repeat split; discriminate|].
  destruct (String.eqb_spec k "aspectRatio") as [->|H2];
    [repeat split; discriminate|].
  destruct (String.eqb_spec k "filterDead") as [->|H3];
    [repeat split; discriminate|].
  auto.
Qed.

Lemma processedValue_no_boolean_string (v : string) :
  processedValue v <> QString "true" /\ processedValue v <> QString "false".
Proof.
  unfold processedValue.
  destruct (String.eqb_spec v "true") as [->|H1]; [split; discriminate|].
  destruct (String.eqb_spec v "false") as [->|H2]; [split; discriminate|].
  split; congruence.
Qed.

(** X13. What [formatFilters] forwards: every entry of the result comes
    from a filter of the request, under its upstream name and with its
    processed value; the three client-side names never appear as keys, and
    the strings ["true"] and ["false"] never appear as values. No filter is
    dropped, and of two filters with the same upstream name the later one
    is forwarded. *)
Theorem formatFilters_forwards (fs : list (string * string)) :
  (forall k v,
      formatFilters fs !! k = Some v ->
      (k <> "licenseType" /\ k <> "aspectRatio" /\ k <> "filterDead")
      /\ (v <> QString "true" /\ v <> QString "false")
      /\ exists k0 v0, In (k0, v0) fs /\ k = apiKey k0 /\ v = processedValue v0)
  /\ (forall k0 v0, In (k0, v0) fs -> is_Some (formatFilters fs !! apiKey k0))
  /\ (forall k0 v0,
         formatFilters (fs ++ [(k0, v0)]) !! apiKey k0 = Some (processedValue v0)).
Proof.
  split; [|split].
  - induction fs as [|[k0 v0] fs IH] using rev_ind; intros k v Hk.
    + unfold formatFilters in Hk. simpl in Hk. rewrite lookup_empty in Hk.
      discriminate.
    + rewrite formatFilters_snoc in Hk.
      destruct (decide (apiKey k0 = k)) as [<-|Hne].
      * rewrite lookup_insert_eq in Hk. injection Hk as <-.
        split; [apply apiKey_renamed|].
        split; [apply processedValue_no_boolean_string|].
        exists k0, v0. split; [|auto]. apply in_or_app. right. now left.
      * rewrite lookup_insert_ne in Hk by exact Hne.
        destruct (IH k v Hk) as (Hkeys & Hvals & k1 & v1 & Hin & Hk1 & Hv1).
        split; [exact Hkeys|]. split; [exact Hvals|].
        exists k1, v1. split; [|auto]. apply in_or_app. now left.
  - induction fs as [|[k1 v1] fs IH] using rev_ind; intros k0 v0 Hin.
    + destruct Hin.
    + rewrite formatFilters_snoc.
      destruct (decide (apiKey k1 = apiKey k0)) as [Heq|Hne].
      * rewrite Heq, lookup_insert_eq. eauto.
      * rewrite lookup_insert_ne by exact Hne.
        apply in_app_or in Hin. destruct Hin as [Hin | [Heq | []]].
        -- now apply IH with v0.
        -- injection Heq as -> ->. contradiction.
  - intros k0 v0. rewrite formatFilters_snoc. apply lookup_insert_eq.
Qed.

(** X14. In the parameters sent upstream a filter always wins: a filter
    whose upstream name is [q], [page] or [page_size] replaces the query,
    the page or the page size of the request. Without such a filter the
    three carry the request's values, and every other parameter is a
    forwarded filter. *)
Theorem buildSearchParams_lookup (query : string) (page pageSize : Z)
    (fs : list (string * string)) :
  let params := buildSearchParams query page pageSize fs in
  (forall k v, formatFilters fs !! k = Some v -> params !! k = Some v)
  /\ (formatFilters fs !! "q" = None -> params !! "q" = Some (QString query))
  /\ (formatFilters fs !! "page" = None -> params !! "page" = Some (QNumber page))
  /\ (formatFilters fs !! "page_size" = None ->
      params !! "page_size" = Some (QNumber pageSize))
  /\ (forall k, k <> "q" -> k <> "page" -> k <> "page_size" ->
        params !! k = formatFilters fs !! k).
Proof.
  unfold buildSearchParams. cbv zeta. split; [|split; [|split; [|split]]].
  - intros k v Hk. apply lookup_union_Some_l. exact Hk.
  - intros Hq. rewrite lookup_union_r by exact Hq. apply lookup_insert_eq.
  - intros Hp. rewrite lookup_union_r by exact Hp.
    rewrite lookup_insert_ne by discriminate. apply lookup_insert_eq.
  - intros Hp. rewrite lookup_union_r by exact Hp.
    rewrite !lookup_insert_ne by discriminate. apply lookup_insert_eq.
  - intros k Hq Hp Hps.
    destruct (formatFilters fs !! k) as [v|] eqn:Hk.
    + apply lookup_union_Some_l. exact Hk.
    + rewrite lookup_union_r by exact Hk.
      rewrite !lookup_insert_ne by congruence. apply lookup_empty.
Qed.

End FilterMore.

Section SearchMore.
Context {Item : Type}.
Import UserModel SearchHistoryModel Database Http SearchController.

(** A branch of [searchMedia] that writes nothing. *)
Ltac nothing_written :=
  simpl; split; [reflexivity|];
  split; [first [reflexivity|assumption]|];
  split; [reflexivity|]; split; [reflexivity|];
  let u := fresh in let Hu := fresh in let Hx := fresh in
  intros u Hu Hx; first [discriminate Hu|discriminate Hx].

Lemma runSearch_count (api : Api Item) (m : string)
    (params : gmap string QVal) (page pageSize : Z) (calls : list ApiCall)
    (r : SearchResult Item) (n : Z) :
  runSearch api m params page pageSize = (calls, inl (r, n)) ->
  n = result_count r.
Proof.
  unfold runSearch.
  destruct (String.eqb m "image").
  - destruct (result (searchImages api params)); intros [= _ <- <-]. reflexivity.
  - destruct (String.eqb m "audio").
    + destruct (result (searchAudio api params)); intros [= _ <- <-]. reflexivity.
    + destruct (promiseAll _ _) as [[ri ra]|e]; intros [= _ <- <-]. reflexivity.
Qed.

(** What [searchMedia] writes, branch by branch. *)
Lemma searchMedia_writes (api : Api Item) (ctx : Ctx) (errors : list string)
    (user : option User) (query : string) (page pageSize : option Z)
    (mediaType : option string) (filters : list (string * string)) (db : Db) :
  let out := searchMedia api ctx errors user query page pageSize mediaType
               filters db in
  let resp := fst (fst out) in
  let db' := snd (fst out) in
  users db' = users db
  /\ available db' = available db
  /\ (user = None -> db' = db)
  /\ (status resp <> 200%Z -> db' = db)
  /\ (forall u, user = Some u -> status resp = 200%Z ->
        exists row r,
          body resp = Results r
          /\ search_histories db !! uuid ctx = None
          /\ search_histories db' = <[uuid ctx := row]> (search_histories db)
          /\ userId row = id u
          /\ varchar 255 query = Some (SearchHistoryModel.query row)
          /\ SearchHistoryModel.filters row = filters
          /\ resultCount row = result_count r
          /\ SearchHistoryModel.createdAt row = now ctx
          /\ parseMediaType (default "all" mediaType)
             = Some (SearchHistoryModel.mediaType row)).
Proof.
  unfold searchMedia.
  destruct errors as [|e errors].
  2:{ nothing_written. }
  destruct (runSearch _ _ _ _ _) as [calls [[r n]|e]] eqn:Hrun.
  2:{ nothing_written. }
  apply runSearch_count in Hrun. subst n.
  destruct user as [u|].
  2:{ nothing_written. }
  unfold SearchHistory_create.
  destruct (available db) eqn:Hav; simpl.
  2:{ nothing_written. }
  destruct (parseMediaType (default "all" mediaType)) as [mt|] eqn:Hmt; simpl.
  2:{ nothing_written. }
  destruct (varchar 255 query) as [stored|] eqn:Hq; simpl.
  2:{ nothing_written. }
  destruct (int4 (result_count r)); simpl.
  2:{ nothing_written. }
  destruct (bool_decide (is_Some (search_histories db !! uuid ctx))) eqn:Hfresh;
    simpl.
  { nothing_written. }
  apply bool_decide_eq_false in Hfresh. apply eq_None_not_Some in Hfresh.
  split; [reflexivity|]. split; [exact Hav|].
  split; [intros Hx; discriminate Hx|].
  split; [intros Hx; now contradiction Hx|].
  intros u0 [= <-] _. eexists _, r. repeat split; auto.
Qed.

(** X15. [searchMedia] never touches the users, and it writes to the search
    history only when it answers 200 to a signed-in caller: then exactly one
    row is added, under the fresh key, owned by the caller, with the query
    as its column stores it, the filters as the request gave them, the time
    of the request, and the result count the answer reports. An anonymous
    search and a search answered with an error write nothing. *)
Theorem searchMedia_effects (api : Api Item) (ctx : Ctx) (errors : list string)
    (user : option User) (query : string) (page pageSize : option Z)
    (mediaType : option string) (filters : list (string * string)) (db : Db) :
  let out := searchMedia api ctx errors user query page pageSize mediaType
               filters db in
  let resp := fst (fst out) in
  let db' := snd (fst out) in
  users db' = users db
  /\ available db' = available db
  /\ (user = None -> db' = db)
  /\ (status resp <> 200%Z -> db' = db)
  /\ (forall u, user = Some u -> status resp = 200%Z ->
        exists row r,
          body resp = Results r
          /\ search_histories db !! uuid ctx = None
          /\ search_histories db' = <[uuid ctx := row]> (search_histories db)
          /\ userId row = id u
          /\ varchar 255 query = Some (SearchHistoryModel.query row)
          /\ SearchHistoryModel.filters row = filters
          /\ resultCount row = result_count r
          /\ SearchHistoryModel.createdAt row = now ctx
          /\ parseMediaType (default "all" mediaType)
             = Some (SearchHistoryModel.mediaType row)).
Proof.
  exact (searchMedia_writes api ctx errors user query page pageSize mediaType
           filters db).
Qed.

(** X16. A search over both kinds is all or nothing: when the image search
    or the audio search is rejected, the answer is 500 "Search failed" with
    the rejection, the results of the other search are not returned, and no
    history row is written, although both searches were issued. *)
Theorem searchMedia_all_or_nothing (api : Api Item) (ctx : Ctx)
    (user : option User) (query : string) (page pageSize : option Z)
    (filters : list (string * string)) (db : Db) (m : string) :
  m <> "image" -> m <> "audio" ->
  let params :=
    buildSearchParams query (default 1%Z page) (default 20%Z pageSize) filters in
  (exists e, result (searchImages api params) = inr e)
  \/ (exists e, result (searchAudio api params) = inr e) ->
  exists e,
    searchMedia api ctx [] user query page pageSize (Some m) filters db
    = (respond 500 (Failure "Search failed" (Upstream e)), db,
       [SearchImages params; SearchAudio params])
    /\ (result (searchImages api params) = inr e
        \/ result (searchAudio api params) = inr e).
Proof.
  intros Hi Ha params Hrej.
  unfold searchMedia. fold params. simpl default.
  rewrite (runSearch_both api m) by assumption.
  unfold promiseAll.
  destruct (result (searchImages api params)) as [ri|ei] eqn:Himg;
    destruct (result (searchAudio api params)) as [ra|ea] eqn:Haud.
  - destruct Hrej as [[e He] | [e He]]; discriminate.
  - exists ea. split; [reflexivity|]. now right.
  - exists ei. split; [reflexivity|]. now left.
  - destruct (settledAt (searchAudio api params)
              <? settledAt (searchImages api params))%Z.
    + exists ea. split; [reflexivity|]. now right.
    + exists ei. split; [reflexivity|]. now left.
Qed.

End SearchMore.

(** ** The search history: pages, totals and repeated deletes *)

Section HistoryMore.
Import UserModel SearchHistoryModel Database Http SearchController.
Context {Item : Type} {pg : Postgres}.

Lemma newerFirst_total : Total newerFirst.
Proof. intros a b. unfold newerFirst. lia. Qed.

Lemma newerFirst_trans : Transitive newerFirst.
Proof. intros a b c. unfold newerFirst. lia. Qed.

(** The rows one user owns, counted in the list and in the table. *)
Lemma owned_count (owner : string) (t : gmap string SearchHistory) :
  length (List.filter (fun kv => String.eqb (userId (snd kv)) owner)
            (map_to_list t))
  = size (filter (fun kv : string * SearchHistory => userId (snd kv) = owner) t).
Proof.
  rewrite <- length_map_to_list. apply Permutation_length.
  apply NoDup_Permutation.
  - apply NoDup_ListNoDup, List.NoDup_filter, NoDup_ListNoDup, NoDup_map_to_list.
  - apply NoDup_map_to_list.
  - intros [k row]. rewrite list_elem_of_In, filter_In, <- list_elem_of_In.
    rewrite !elem_of_map_to_list, map_lookup_filter_Some. simpl.
    rewrite String.eqb_eq. reflexivity.
Qed.

(** When and what [getSearchHistory] answers with a page. *)
Lemma getSearchHistory_answers (A : User) (page pageSize : option Z) (db : Db) :
  available db = true ->
  (0 <= default 20%Z pageSize)%Z ->
  (0 <= (default 1%Z page - 1) * default 20%Z pageSize)%Z ->
  getSearchHistory (Item := Item) (Some A) page pageSize db
  = json (History
            (Z.of_nat (size (filter (fun kv : string * SearchHistory =>
                                       userId (snd kv) = id A)
                               (search_histories db))))
            (default 1%Z page) (default 20%Z pageSize)
            (pagesOf
               (Z.of_nat (size (filter (fun kv : string * SearchHistory =>
                                          userId (snd kv) = id A)
                                  (search_histories db))))
               (default 20%Z pageSize))
            (take (Z.to_nat (default 20%Z pageSize))
               (drop (Z.to_nat ((default 1%Z page - 1) * default 20%Z pageSize))
                  (merge_sort newerFirst
                     (List.filter
                        (fun kv => String.eqb (userId (snd kv)) (id A))
                        (map_to_list (search_histories db))))))).
Proof.
  intros Hav Hps Hoff.
  unfold getSearchHistory, SearchHistory_findAndCountAll. rewrite Hav. simpl.
  apply Z.ltb_ge in Hps, Hoff. rewrite Hps, Hoff.
  rewrite owned_count. reflexivity.
Qed.

Lemma getSearchHistory_page_inv (A : User) (page pageSize : option Z) (db : Db)
    (total p ps : Z) (pages : option Z) (rows : list (string * SearchHistory)) :
  body (getSearchHistory (Item := Item) (Some A) page pageSize db)
  = History total p ps pages rows ->
  available db = true
  /\ (0 <= default 20%Z pageSize)%Z
  /\ (0 <= (default 1%Z page - 1) * default 20%Z pageSize)%Z.
Proof.
  unfold getSearchHistory, SearchHistory_findAndCountAll.
  destruct (available db); simpl; [|discriminate].
  destruct (default 20%Z pageSize <? 0)%Z eqn:Hps; [discriminate|].
  destruct ((default 1%Z page - 1) * default 20%Z pageSize <? 0)%Z eqn:Hoff;
    [discriminate|].
  intros _. apply Z.ltb_ge in Hps, Hoff. auto.
Qed.

(** X17. A page of the search history: [total] counts all rows of the
    caller, whatever the page; the page holds at most [pageSize] rows and
    exactly the rows left after the earlier pages, none when the page lies
    beyond the last; and its rows are in order, newest first. *)
Theorem getSearchHistory_page (A : User) (page pageSize : option Z) (db : Db)
    (total p ps : Z) (pages : option Z) (rows : list (string * SearchHistory)) :
  body (getSearchHistory (Item := Item) (Some A) page pageSize db)
  = History total p ps pages rows ->
  p = default 1%Z page /\ ps = default 20%Z pageSize
  /\ total
     = Z.of_nat (size (filter (fun kv : string * SearchHistory =>
                                 userId (snd kv) = id A)
                         (search_histories db)))
  /\ Z.of_nat (length rows) = Z.min ps (Z.max 0 (total - (p - 1) * ps))
  /\ StronglySorted newerFirst rows.
Proof.
  intros Hbody.
  destruct (getSearchHistory_page_inv _ _ _ _ _ _ _ _ _ Hbody)
    as (Hav & Hps & Hoff).
  rewrite (getSearchHistory_answers A page pageSize db Hav Hps Hoff) in Hbody.
  simpl in Hbody. injection Hbody as <- <- <- _ <-.
  split; [reflexivity|]. split; [reflexivity|]. split; [reflexivity|]. split.
  - rewrite length_take, length_drop.
    rewrite (Permutation_length (merge_sort_Permutation _ _)).
    rewrite owned_count. lia.
  - pose proof (@StronglySorted_merge_sort _ newerFirst _
                  newerFirst_trans newerFirst_total
                  (List.filter (fun kv => String.eqb (userId (snd kv)) (id A))
                     (map_to_list (search_histories db)))) as Hsorted.
    set (sorted := merge_sort newerFirst _) in *.
    rewrite <- (take_drop (Z.to_nat ((default 1%Z page - 1) * default 20%Z pageSize))
                  sorted) in Hsorted.
    apply StronglySorted_app_1_r in Hsorted.
    rewrite <- (take_drop (Z.to_nat (default 20%Z pageSize))
                  (drop _ sorted)) in Hsorted.
    now apply StronglySorted_app_1_l in Hsorted.
Qed.

(** X18. After a record was deleted (answer 200), its id is gone for
    everyone: the table is the old one without the key the id denotes, and
    a second delete of the same id, by the owner or by anyone else, is
    answered 404 and changes nothing. *)
Theorem deleteSearchHistoryItem_twice (A B : User) (i : string) (db : Db) :
  status (fst (deleteSearchHistoryItem (Item := Item) (Some A) i db)) = 200%Z ->
  let db' := snd (deleteSearchHistoryItem (Item := Item) (Some A) i db) in
  (exists k,
      uuid_in i = Some k
      /\ search_histories db' = delete k (search_histories db))
  /\ users db' = users db
  /\ deleteSearchHistoryItem (Item := Item) (Some B) i db'
     = (respond 404 (Message "Search history item not found"), db').
Proof.
  intros H200 db'.
  destruct (deleteSearchHistoryItem_cases (Item := Item) A i db)
    as [(k & row & Hk & Hrow & Hown & Hav & Hrun)
       | [(k & _ & _ & _ & Hrun) | (_ & _ & Hst)]].
  - unfold db'. rewrite Hrun. simpl.
    split; [exists k; split; [exact Hk|reflexivity]|]. split; [reflexivity|].
    unfold deleteSearchHistoryItem, SearchHistory_findOne. simpl.
    rewrite Hav, Hk. simpl. rewrite lookup_delete_eq. reflexivity.
  - rewrite Hrun in H200. discriminate H200.
  - rewrite Hst in H200. discriminate H200.
Qed.

(** X19. After a user cleared the history, with the store reachable, the
    user's next page is empty with total 0, and every other user's total is
    what it was before. *)
Theorem clearSearchHistory_then_fetch (A : User) (page pageSize : option Z)
    (db : Db) :
  available db = true ->
  (0 <= default 20%Z pageSize)%Z ->
  (0 <= (default 1%Z page - 1) * default 20%Z pageSize)%Z ->
  let db' := snd (clearSearchHistory (Item := Item) (Some A) db) in
  getSearchHistory (Item := Item) (Some A) page pageSize db'
  = json (History 0%Z (default 1%Z page) (default 20%Z pageSize)
            (pagesOf 0%Z (default 20%Z pageSize)) [])
  /\ (forall B : User,
         id B <> id A ->
         size (filter (fun kv : string * SearchHistory => userId (snd kv) = id B)
                 (search_histories db'))
         = size (filter (fun kv : string * SearchHistory => userId (snd kv) = id B)
                   (search_histories db))).
Proof.
  intros Hav Hps Hoff db'.
  assert (Hdb' : db' = withHistories
            (filter (fun kv => userId (snd kv) <> id A) (search_histories db)) db).
  { unfold db', clearSearchHistory, SearchHistory_destroyWhere.
    rewrite Hav. reflexivity. }
  split.
  - assert (Hnone : List.filter
                      (fun kv => String.eqb (userId (snd kv)) (id A))
                      (map_to_list (search_histories db')) = []).
    { rewrite Hdb'. simpl.
      destruct (List.filter _ _) as [|[k row] l] eqn:Hf; [reflexivity|].
      assert (Hin : In (k, row) (List.filter
                 (fun kv => String.eqb (userId (snd kv)) (id A))
                 (map_to_list (filter (fun kv => userId (snd kv) <> id A)
                                 (search_histories db)))))
        by (rewrite Hf; now left).
      apply filter_In in Hin. destruct Hin as [Hin Heq].
      apply list_elem_of_In, elem_of_map_to_list, map_lookup_filter_Some in Hin.
      simpl in Heq, Hin. apply String.eqb_eq in Heq. tauto. }
    rewrite getSearchHistory_answers; [|rewrite Hdb'; exact Hav|exact Hps|exact Hoff].
    rewrite <- owned_count, Hnone.
    change (merge_sort newerFirst []) with (@nil (string * SearchHistory)).
    now rewrite drop_nil, take_nil.
  - intros B HB. rewrite Hdb'. simpl. f_equal.
    rewrite map_filter_filter. apply map_filter_ext.
    intros k row _. simpl. split; [tauto|]. intros HBrow. split; [exact HBrow|].
    congruence.
Qed.

(** X20. A search by a signed-in user that is answered 200 raises that
    user's history total by one and leaves every other user's total as it
    was. *)
Theorem searchMedia_then_total (api : Api Item) (ctx : Ctx) (u : User)
    (query : string) (page pageSize : option Z) (mediaType : option string)
    (filters : list (string * string)) (db : Db) :
  status (fst (fst (searchMedia api ctx [] (Some u) query page pageSize mediaType
                      filters db))) = 200%Z ->
  let db' := snd (fst (searchMedia api ctx [] (Some u) query page pageSize
                         mediaType filters db)) in
  size (filter (fun kv : string * SearchHistory => userId (snd kv) = id u)
          (search_histories db'))
  = S (size (filter (fun kv : string * SearchHistory => userId (snd kv) = id u)
               (search_histories db)))
  /\ (forall B : User,
         id B <> id u ->
         size (filter (fun kv : string * SearchHistory => userId (snd kv) = id B)
                 (search_histories db'))
         = size (filter (fun kv : string * SearchHistory => userId (snd kv) = id B)
                   (search_histories db))).
Proof.
  intros H200 db'.
  destruct (searchMedia_writes api ctx [] (Some u) query page pageSize mediaType
              filters db) as (_ & _ & _ & _ & Hrow).
  destruct (Hrow u eq_refl H200)
    as (row & r & _ & Hfresh & Hins & Hown & _).
  fold db' in Hins. rewrite Hins. split.
  - rewrite map_filter_insert_True by exact Hown.
    apply map_size_insert_None.
    apply map_lookup_filter_None. now left.
  - intros B HB.
    rewrite map_filter_insert_False by (simpl; congruence).
    now rewrite delete_id.
Qed.

End HistoryMore.

(** ** A refresh that fails, the media handlers and the error handler *)

Section RefreshMore.
Context {T : Type}.
Import Openverse.

(** X21. When the first attempt is rejected with a 401 or 403 response and
    the token exchange that follows fails, [makeRequest] throws the plain
    [Error] "Authentication with Openverse API failed" in place of the
    upstream rejection, does not call the gate again, and leaves the client
    without a token. *)
Theorem makeRequest_refresh_fails (config : AxiosRequestConfig)
    (s : Client * World T) (response1 : ErrorResponse)
    (c1 : Client) (w1 : World T) (e : JsError) :
  attempt config s = (inr (AxiosError (Some response1)), (c1, w1)) ->
  status response1 = 401%Z \/ status response1 = 403%Z ->
  outcome (hd timedOut (tokenEndpoint w1)) = inr e ->
  makeRequest config s
  = (inr (Error "Authentication with Openverse API failed"),
     ({| accessToken := None; tokenExpiresAt := tokenExpiresAt c1 |},
      {| clock := clock w1 + latency (hd timedOut (tokenEndpoint w1));
         tokenEndpoint := tail (tokenEndpoint w1);
         gate := gate w1;
         trace := trace w1 ++ [TokenExchange];
         throttle := throttle w1 |})).
Proof.
  intros Hfirst Hst He. unfold makeRequest, tryCatch. rewrite Hfirst.
  unfold onRequestError.
  assert (Hb : ((status response1 =? 401)%Z || (status response1 =? 403)%Z) = true).
  { destruct Hst as [-> | ->]; reflexivity. }
  rewrite Hb. unfold bind at 1. unfold setAccessToken.
  unfold attempt, createAuthenticatedConfig.
  unfold bind at 1. unfold bind at 1.
  unfold getAccessToken, bind, getClient, dateNow. simpl.
  unfold tryCatch, bind, axiosPostToken.
  destruct (tokenEndpoint w1) as [|r0 rest]; simpl in *;
    [reflexivity|rewrite He; reflexivity].
Qed.

End RefreshMore.

Section MediaMore.
Context {Item : Type}.
Import Http MediaController.

(** X22. [getMediaDetails] and [getRelatedMedia] go upstream only for a
    non-empty id and the type ['image'] or ['audio'], with one call, and
    then answer 200 or 500; an empty id, an empty type or any other type is
    answered 400 without a call. *)
Theorem media_handlers_gate (api : MediaApi Item) (i type : string) :
  ((status (fst (getMediaDetails api i type)) = 400%Z
    /\ snd (getMediaDetails api i type) = []
    /\ (i = EmptyString \/ (type <> "image" /\ type <> "audio")))
   \/ (i <> EmptyString
       /\ ((type = "image" /\ snd (getMediaDetails api i type) = [ImageDetails i])
           \/ (type = "audio"
               /\ snd (getMediaDetails api i type) = [AudioDetails i]))
       /\ (status (fst (getMediaDetails api i type)) = 200%Z
           \/ status (fst (getMediaDetails api i type)) = 500%Z)))
  /\
  ((status (fst (getRelatedMedia api i type)) = 400%Z
    /\ snd (getRelatedMedia api i type) = []
    /\ (i = EmptyString \/ (type <> "image" /\ type <> "audio")))
   \/ (i <> EmptyString
       /\ ((type = "image" /\ snd (getRelatedMedia api i type) = [RelatedImages i])
           \/ (type = "audio"
               /\ snd (getRelatedMedia api i type) = [RelatedAudio i]))
       /\ (status (fst (getRelatedMedia api i type)) = 200%Z
           \/ status (fst (getRelatedMedia api i type)) = 500%Z))).
Proof.
  unfold getMediaDetails, getRelatedMedia.
  destruct i as [|a i]; [split; left; simpl; auto|].
  destruct type as [|b type]; [split; left; simpl; repeat split; auto; right;
                               split; discriminate|].
  simpl negb. simpl orb. cbv iota.
  destruct (String.eqb_spec (String b type) "image") as [->|Hi].
  - destruct (getImageDetails api _), (getRelatedImages api _); simpl;
      (split; right; (split; [discriminate|]);
       (split; [left; split; reflexivity|]); auto).
  - destruct (String.eqb_spec (String b type) "audio") as [->|Ha].
    + destruct (getAudioDetails api _), (getRelatedAudio api _); simpl;
        (split; right; (split; [discriminate|]);
         (split; [right; split; reflexivity|]); auto).
    + split; left; simpl; auto.
Qed.

End MediaMore.

Section ErrorHandlerMore.
Import Http ErrorHandler.

(** X23. The error handler answers with the status the error carries, or
    500 when it carries none; the status in the body is the status of the
    answer; the message in the body is never empty; and in production the
    body has no stack. A request that reaches [notFoundHandler] is answered
    404 with a message naming the requested URL, one that reaches
    [rateLimitHandler] 429. *)
Theorem errorHandler_answers (production : bool) (err : Err) :
  status (errorHandler production err) = default 500%Z (statusCode err)
  /\ errorStatus (body (errorHandler production err))
     = status (errorHandler production err)
  /\ errorMessage (body (errorHandler production err)) <> EmptyString
  /\ (production = true -> errorStack (body (errorHandler production err)) = None)
  /\ (forall originalUrl st,
         status (errorHandler production (notFoundHandler originalUrl st)) = 404%Z
         /\ errorMessage (body (errorHandler production
                                  (notFoundHandler originalUrl st)))
            = "Not Found - " +:+ originalUrl)
  /\ (forall st, status (errorHandler production (rateLimitHandler st)) = 429%Z).
Proof.
  unfold errorHandler. simpl.
  split; [reflexivity|]. split; [reflexivity|]. split; [|split; [|split]].
  - destruct (message err) as [|a m] eqn:Hm; simpl; [discriminate|].
    discriminate.
  - intros ->. reflexivity.
  - intros originalUrl st. split; reflexivity.
  - intros st. reflexivity.
Qed.

End ErrorHandlerMore.

(** ** Runs of the further properties *)

Section ClientMoreRuns.
Import Openverse Samples.

Lemma makeRequest_activity_witness :
  makeRequest statsConfig coldStart
  = (inl "first",
     ({| accessToken := Some "new"; tokenExpiresAt := 3301040 |},
      {| clock := 1160; tokenEndpoint := [];
         gate := [reply 130 (inl "second")];
         trace := [TokenExchange; GateCall (withBearer statsConfig "new")];
         throttle := started 1040 120 (inl "first") |}))
  /\ headers (withBearer statsConfig "new") !! "Authorization"
     = Some "Bearer new"
  /\ exists new,
       [TokenExchange; GateCall (withBearer statsConfig "new")] = [] ++ new
       /\ (gateCalls new <= 2)%nat
       /\ (tokenExchanges new <= 2)%nat
       /\ Forall (fun ev => forall sent, ev = GateCall sent ->
             exists tok,
               (accessToken (fst coldStart) = Some tok
                \/ exists rp response,
                     In rp (tokenEndpoint (snd coldStart))
                     /\ outcome rp = inl response
                     /\ access_token response = tok)
               /\ headers sent !! "Authorization" = Some ("Bearer " +:+ tok)
               /\ (forall k, k <> "Authorization" ->
                             headers sent !! k = headers statsConfig !! k)
               /\ method sent = method statsConfig
               /\ url sent = url statsConfig
               /\ params sent = params statsConfig
               /\ timeout sent = timeout statsConfig) new.
Proof.
  assert (Hrun : makeRequest statsConfig coldStart
    = (inl "first",
       ({| accessToken := Some "new"; tokenExpiresAt := 3301040 |},
        {| clock := 1160; tokenEndpoint := [];
           gate := [reply 130 (inl "second")];
           trace := [TokenExchange; GateCall (withBearer statsConfig "new")];
           throttle := started 1040 120 (inl "first") |})))
    by reflexivity.
  split; [exact Hrun|]. split; [reflexivity|].
  exact (makeRequest_activity statsConfig coldStart _ _ Hrun).
Defined.

Lemma makeRequest_other_errors_witness :
  attempt statsConfig
    (warm, world 1000 [] [reply 120 (inr (rejected 500 (Some "boom")))])
  = (inr (rejected 500 (Some "boom")),
     (warm, {| clock := 1120; tokenEndpoint := []; gate := [];
               trace := [GateCall (withBearer statsConfig "old")];
               throttle :=
                 started 1000 120 (inr (rejected 500 (Some "boom"))) |}))
  /\ makeRequest statsConfig
       (warm, world 1000 [] [reply 120 (inr (rejected 500 (Some "boom")))])
     = (inr (Error "Openverse API error (500): boom"),
        (warm, {| clock := 1120; tokenEndpoint := []; gate := [];
                  trace := [GateCall (withBearer statsConfig "old")];
                  throttle :=
                    started 1000 120 (inr (rejected 500 (Some "boom"))) |})).
Proof.
  assert (Hfirst : attempt statsConfig
      (warm, world 1000 [] [reply 120 (inr (rejected 500 (Some "boom")))])
    = (inr (rejected 500 (Some "boom")),
       (warm, {| clock := 1120; tokenEndpoint := []; gate := [];
                 trace := [GateCall (withBearer statsConfig "old")];
                 throttle :=
                   started 1000 120 (inr (rejected 500 (Some "boom"))) |})))
    by reflexivity.
  split; [exact Hfirst|].
  refine (makeRequest_other_errors statsConfig _ _ _ Hfirst _).
  intros response [= <-]. split; discriminate.
Defined.

Lemma makeRequest_without_token_witness :
  cachedToken newClient (clock (world 1000 [reply 40 (inr (rejected 400 None))] []))
  = None
  /\ makeRequest statsConfig
       (newClient, world 1000 [reply 40 (inr (rejected 400 None))] [])
     = (inr (Error "Authentication with Openverse API failed"),
        (newClient, {| clock := 1040; tokenEndpoint := []; gate := [];
                       trace := [TokenExchange]; throttle := idle |})).
Proof.
  split; [reflexivity|].
  exact (makeRequest_without_token statsConfig newClient
           (world 1000 [reply 40 (inr (rejected 400 None))] [])
           (rejected 400 None) eq_refl eq_refl).
Defined.

Lemma short_lived_token_not_cached_witness :
  (expires_in (token "brief" 200) * 1000 <= 300000)%Z
  /\ trace (snd (snd (getAccessToken
                        (fst (snd (getAccessToken
                                     (newClient,
                                      world 1000 [reply 40 (inl (token "brief" 200))]
                                        []))),
                         world 1040 [reply 40 (inl (token "next" 200))] []))))
     = [TokenExchange].
Proof.
  assert (Httl : (expires_in (token "brief" 200) * 1000 <= 300000)%Z)
    by (vm_compute; discriminate).
  split; [exact Httl|].
  refine (short_lived_token_not_cached newClient
            (world 1000 [reply 40 (inl (token "brief" 200))] [])
            40%Z (token "brief" 200) []
            (world 1040 [reply 40 (inl (token "next" 200))] [])
            eq_refl eq_refl Httl _).
  vm_compute. discriminate.
Defined.

(** The statistics are asked for and, 120 ms later, the images: the
    second request is answered with the statistics, and the reply the
    upstream API holds for it is never read. *)
Lemma makeRequest_twice_inside_window_witness :
  makeRequest imagesConfig (snd (makeRequest statsConfig coldStart))
  = (inl "first",
     ({| accessToken := Some "new"; tokenExpiresAt := 3301040 |},
      {| clock := 1160; tokenEndpoint := [];
         gate := [reply 130 (inl "second")];
         trace := [TokenExchange; GateCall (withBearer statsConfig "new")];
         throttle :=
           {| lastArgs := Some (withBearer imagesConfig "new");
              lastCallTime := Some 1160%Z;
              lastInvokeTime := 1040;
              timerId := Some 2040%Z;
              result :=
                Some {| settlesAt := 1160; settlement := inl "first" |} |} |})).
Proof.
  refine (proj1 (proj2 (makeRequest_twice_inside_window statsConfig imagesConfig
                   newClient
                   (world 1000 [reply 40 (inl (token "new" 3600))]
                      [reply 120 (inl "first"); reply 130 (inl "second")])
                   40%Z (token "new" 3600) [] 120%Z "first"
                   [reply 130 (inl "second")]
                   eq_refl eq_refl eq_refl eq_refl eq_refl eq_refl _ _))).
  - vm_compute. split; [discriminate|reflexivity].
  - vm_compute. reflexivity.
Defined.

Lemma makeRequest_refresh_fails_witness :
  attempt statsConfig
    (warm, world 1000 [] [reply 120 (inr (AxiosError (Some unauthorized)))])
  = (inr (AxiosError (Some unauthorized)),
     (warm, {| clock := 1120; tokenEndpoint := []; gate := [];
               trace := [GateCall (withBearer statsConfig "old")];
               throttle :=
                 started 1000 120 (inr (AxiosError (Some unauthorized))) |}))
  /\ makeRequest statsConfig
       (warm, world 1000 [] [reply 120 (inr (AxiosError (Some unauthorized)))])
     = (inr (Error "Authentication with Openverse API failed"),
        ({| accessToken := None; tokenExpiresAt := 5000 |},
         {| clock := 11120; tokenEndpoint := []; gate := [];
            trace := [GateCall (withBearer statsConfig "old"); TokenExchange];
            throttle :=
              started 1000 120 (inr (AxiosError (Some unauthorized))) |})).
Proof.
  assert (Hfirst : attempt statsConfig
      (warm, world 1000 [] [reply 120 (inr (AxiosError (Some unauthorized)))])
    = (inr (AxiosError (Some unauthorized)),
       (warm, {| clock := 1120; tokenEndpoint := []; gate := [];
                 trace := [GateCall (withBearer statsConfig "old")];
                 throttle :=
                   started 1000 120 (inr (AxiosError (Some unauthorized))) |})))
    by reflexivity.
  split; [exact Hfirst|].
  exact (makeRequest_refresh_fails statsConfig _ unauthorized _ _
           (AxiosError None) Hfirst (or_introl eq_refl) eq_refl).
Defined.

(** The first answer takes 980 ms and the fresh token 40 ms more: the
    retry goes out, is answered 401 again, and that second rejection is
    what the caller gets. *)
Lemma makeRequest_retry_after_window_witness :
  cachedToken warm 1000 = Some "old"
  /\ status unauthorized = 401%Z
  /\ (WAIT <= 980 + 40)%Z
  /\ makeRequest statsConfig
       (warm, world 1000 [reply 40 (inl (token "new" 3600))]
                [reply 980 (inr (AxiosError (Some unauthorized)));
                 reply 130 (inr (rejected 401 None))])
     = (inr (rejected 401 None),
        ({| accessToken := Some "new"; tokenExpiresAt := 3302020 |},
         {| clock := 2150; tokenEndpoint := []; gate := [];
            trace := [GateCall (withBearer statsConfig "old"); TokenExchange;
                      GateCall (withBearer statsConfig "new")];
            throttle := started 2020 130 (inr (rejected 401 None)) |})).
Proof.
  split; [reflexivity|]. split; [reflexivity|].
  split; [vm_compute; discriminate|].
  exact (proj1 (makeRequest_retry_after_window statsConfig warm
                  (world 1000 [reply 40 (inl (token "new" 3600))]
                     [reply 980 (inr (AxiosError (Some unauthorized)));
                      reply 130 (inr (rejected 401 None))])
                  "old" 980%Z unauthorized (reply 130 (inr (rejected 401 None)))
                  [] 40%Z (token "new" 3600) []
                  eq_refl eq_refl eq_refl eq_refl (or_introl eq_refl) eq_refl
                  ltac:(discriminate) ltac:(discriminate)
                  ltac:(vm_compute; discriminate) ltac:(discriminate))).
Defined.

End ClientMoreRuns.

Section AccountMoreRuns.
Import UserModel Database AuthMiddleware Http AuthController Samples.

(** Carol's token followed by a blank and more text is still Carol's token. *)
Lemma authenticate_reads_bearer_word_witness :
  @validBearer demoJwt 5000 (Some "Bearer jwt.u-alice")
  = Some ("jwt.u-alice", "u-alice")
  /\ @authenticate demoJwt demoPostgres 5000 (Some "Bearer jwt.u-alice and more") db0
     = @authenticate demoJwt demoPostgres 5000 (Some "Bearer jwt.u-alice") db0.
Proof.
  assert (Hno : ~ In " "%char (list_ascii_of_string "jwt.u-alice")).
  { simpl. intros H. repeat (destruct H as [H|H]; [discriminate H|]). exact H. }
  destruct (@authenticate_reads_bearer_word demoJwt demoPostgres 5000 "jwt.u-alice" "and more"
              db0 Hno) as [H1 H2].
  split; [exact H1|exact H2].
Defined.

(** Alice signs in. *)
Lemma login_effects_witness :
  status (fst (@login demoBcrypt demoJwt ctx0 [] "alice@example.org" "wonderland"
                 db0)) = 200%Z
  /\ exists k u,
       users db0 !! k = Some u
       /\ email u = "alice@example.org"
       /\ isActive u = true
       /\ @comparePassword demoBcrypt u "wonderland" = true.
Proof.
  assert (H200 : status (fst (@login demoBcrypt demoJwt ctx0 []
                   "alice@example.org" "wonderland" db0)) = 200%Z)
    by (vm_compute; reflexivity).
  split; [exact H200|].
  destruct (@login_effects demoBcrypt demoJwt ctx0 [] "alice@example.org"
              "wonderland" db0) as (_ & _ & _ & Hok).
  destruct (Hok H200) as (k & u & Hk & Hmail & Hact & Hcmp & _).
  exists k, u. auto.
Defined.

(** Alice changes her password. *)
Lemma changePassword_effects_witness :
  @comparePassword demoBcrypt alice "wonderland" = true
  /\ available db0 = true
  /\ "looking-glass" <> password alice
  /\ exists u',
       @changePassword demoBcrypt ctx0 [] (Some alice) "wonderland"
         "looking-glass" db0
       = (json (Message "Password updated successfully"),
          withUsers (<[id alice := u']> (users db0)) db0)
       /\ @comparePassword demoBcrypt u' "looking-glass" = true
       /\ @comparePassword demoBcrypt u' "wonderland" = false.
Proof.
  assert (Hne : "looking-glass" <> password alice) by discriminate.
  split; [reflexivity|]. split; [reflexivity|]. split; [exact Hne|].
  destruct (proj2 (@changePassword_effects demoBcrypt demoBcrypt_laws ctx0 alice
                     "wonderland" "looking-glass" db0) eq_refl eq_refl Hne)
    as (u' & Hrun & _ & _ & Hcmp).
  exists u'. split; [exact Hrun|]. split.
  - now apply Hcmp.
  - apply not_true_is_false. intros Hc. apply Hcmp in Hc. discriminate Hc.
Defined.

End AccountMoreRuns.

Section SearchMoreRuns.
Import UserModel SearchHistoryModel Database Http SearchController Samples.

(** Two filters with one upstream name, and a boolean. *)
Lemma formatFilters_forwards_witness :
  formatFilters [("licenseType", "commercial"); ("filterDead", "true");
                 ("license_type", "all")] !! "license_type"
  = Some (QString "all")
  /\ formatFilters [("licenseType", "commercial"); ("filterDead", "true")]
       !! "filter_dead" = Some (QBool true)
  /\ "filter_dead" <> "filterDead".
Proof.
  split.
  - exact (proj2 (proj2 (formatFilters_forwards
                           [("licenseType", "commercial"); ("filterDead", "true")]))
             "license_type" "all").
  - assert (Hk : formatFilters [("licenseType", "commercial"); ("filterDead", "true")]
                   !! "filter_dead" = Some (QBool true)) by (vm_compute; reflexivity).
    split; [exact Hk|].
    destruct (proj1 (formatFilters_forwards
                       [("licenseType", "commercial"); ("filterDead", "true")])
                "filter_dead" (QBool true) Hk) as [(_ & _ & Hkey) _].
    exact Hkey.
Defined.

(** A filter named [page_size] replaces the page size sent upstream. *)
Lemma buildSearchParams_lookup_witness :
  formatFilters [("page_size", "500")] !! "page_size" = Some (QString "500")
  /\ buildSearchParams "cats" 1 20 [("page_size", "500")] !! "page_size"
     = Some (QString "500")
  /\ buildSearchParams "cats" 1 20 [("page_size", "500")] !! "q"
     = Some (QString "cats").
Proof.
  assert (Hk : formatFilters [("page_size", "500")] !! "page_size"
               = Some (QString "500")) by (vm_compute; reflexivity).
  destruct (buildSearchParams_lookup "cats" 1 20 [("page_size", "500")])
    as (Hwin & Hq & _).
  split; [exact Hk|]. split; [exact (Hwin _ _ Hk)|].
  apply Hq. vm_compute. reflexivity.
Defined.

(** Alice searches for cats. *)
Lemma searchMedia_effects_witness :
  status (fst (fst (searchMedia api0 ctx0 [] (Some alice) "cats" None None
                      (Some "image") [("licenseType", "commercial")] db0)))
  = 200%Z
  /\ exists row r,
       body (fst (fst (searchMedia api0 ctx0 [] (Some alice) "cats" None None
                         (Some "image") [("licenseType", "commercial")] db0)))
       = Results r
       /\ search_histories
            (snd (fst (searchMedia api0 ctx0 [] (Some alice) "cats" None None
                         (Some "image") [("licenseType", "commercial")] db0)))
          = <["h9" := row]> (search_histories db0)
       /\ userId row = "u-alice"
       /\ resultCount row = result_count r.
Proof.
  assert (H200 : status (fst (fst (searchMedia api0 ctx0 [] (Some alice) "cats"
                   None None (Some "image") [("licenseType", "commercial")] db0)))
                 = 200%Z) by (vm_compute; reflexivity).
  split; [exact H200|].
  destruct (searchMedia_effects api0 ctx0 [] (Some alice) "cats" None None
              (Some "image") [("licenseType", "commercial")] db0)
    as (_ & _ & _ & _ & Hrow).
  destruct (Hrow alice eq_refl H200)
    as (row & r & Hbody & _ & Hins & Hown & _ & _ & Hcount & _).
  exists row, r. auto.
Defined.

(** The images are there, the audio search is down: no results at all. *)
Lemma searchMedia_all_or_nothing_witness :
  result (searchAudio apiAudioDown (buildSearchParams "cats" 1 20 []))
  = inr (rejected 503 None)
  /\ exists e,
       searchMedia apiAudioDown ctx0 [] (Some alice) "cats" None None (Some "all")
         [] db0
       = (respond 500 (Failure "Search failed" (Upstream e)), db0,
          [SearchImages (buildSearchParams "cats" 1 20 []);
           SearchAudio (buildSearchParams "cats" 1 20 [])])
       /\ (result (searchImages apiAudioDown (buildSearchParams "cats" 1 20 []))
           = inr e
           \/ result (searchAudio apiAudioDown (buildSearchParams "cats" 1 20 []))
              = inr e).
Proof.
  split; [reflexivity|].
  assert (Hi : "all" <> "image") by discriminate.
  assert (Ha : "all" <> "audio") by discriminate.
  refine (searchMedia_all_or_nothing apiAudioDown ctx0 (Some alice) "cats" None
            None [] db0 "all" Hi Ha _).
  right. exists (rejected 503 None). reflexivity.
Defined.

(** Alice's first page of two: her newer search first. *)
Lemma getSearchHistory_page_witness :
  body (getSearchHistory (Item := string) (Some alice) (Some 1%Z) (Some 1%Z) db0)
  = History 2 1 1 (Some 2%Z) [("h3", past "u-alice" "owls" 300)]
  /\ Z.of_nat (length [("h3", past "u-alice" "owls" 300)])
     = Z.min 1 (Z.max 0 (2 - (1 - 1) * 1))
  /\ StronglySorted newerFirst [("h3", past "u-alice" "owls" 300)].
Proof.
  assert (Hbody : body (getSearchHistory (Item := string) (Some alice) (Some 1%Z)
                          (Some 1%Z) db0)
                  = History 2 1 1 (Some 2%Z) [("h3", past "u-alice" "owls" 300)])
    by (vm_compute; reflexivity).
  split; [exact Hbody|].
  destruct (getSearchHistory_page (Item := string) alice (Some 1%Z) (Some 1%Z) db0
              _ _ _ _ _ Hbody) as (_ & _ & _ & Hlen & Hsorted).
  split; [exact Hlen|exact Hsorted].
Defined.

(** Alice deletes a search; Bob then tries the same id. *)
Lemma deleteSearchHistoryItem_twice_witness :
  status (fst (@deleteSearchHistoryItem string demoPostgres (Some alice) "h1" db0))
  = 200%Z
  /\ @deleteSearchHistoryItem string demoPostgres (Some bob) "h1"
       (snd (@deleteSearchHistoryItem string demoPostgres (Some alice) "h1" db0))
     = (respond 404 (Message "Search history item not found"),
        snd (@deleteSearchHistoryItem string demoPostgres (Some alice) "h1" db0)).
Proof.
  assert (H200 : status (fst (@deleteSearchHistoryItem string demoPostgres
                                (Some alice) "h1" db0)) = 200%Z)
    by (vm_compute; reflexivity).
  split; [exact H200|].
  destruct (@deleteSearchHistoryItem_twice string demoPostgres alice bob "h1" db0
              H200)
    as (_ & _ & H404).
  exact H404.
Defined.

(** Alice clears her history; Bob keeps his one search. *)
Lemma clearSearchHistory_then_fetch_witness :
  available db0 = true
  /\ getSearchHistory (Item := string) (Some alice) None None
       (snd (clearSearchHistory (Item := string) (Some alice) db0))
     = json (History 0 1 20 (Some 0%Z) [])
  /\ size (filter (fun kv : string * SearchHistory => userId (snd kv) = id bob)
             (search_histories
                (snd (clearSearchHistory (Item := string) (Some alice) db0))))
     = size (filter (fun kv : string * SearchHistory => userId (snd kv) = id bob)
               (search_histories db0)).
Proof.
  assert (Hps : (0 <= default 20 None)%Z) by (vm_compute; discriminate).
  assert (Hoff : (0 <= (default 1 None - 1) * default 20 None)%Z)
    by (vm_compute; discriminate).
  destruct (clearSearchHistory_then_fetch (Item := string) alice None None db0
              eq_refl Hps Hoff) as [Hmine Hothers].
  split; [reflexivity|]. split; [exact Hmine|].
  apply Hothers. discriminate.
Defined.

(** Alice's total after her search. *)
Lemma searchMedia_then_total_witness :
  status (fst (fst (searchMedia api0 ctx0 [] (Some alice) "cats" None None
                      (Some "all") [] db0))) = 200%Z
  /\ size (filter (fun kv : string * SearchHistory => userId (snd kv) = id alice)
             (search_histories
                (snd (fst (searchMedia api0 ctx0 [] (Some alice) "cats" None None
                             (Some "all") [] db0)))))
     = S (size (filter (fun kv : string * SearchHistory =>
                          userId (snd kv) = id alice)
                  (search_histories db0))).
Proof.
  assert (H200 : status (fst (fst (searchMedia api0 ctx0 [] (Some alice) "cats"
                   None None (Some "all") [] db0))) = 200%Z)
    by (vm_compute; reflexivity).
  split; [exact H200|].
  exact (proj1 (searchMedia_then_total api0 ctx0 alice "cats" None None
                  (Some "all") [] db0 H200)).
Defined.

End SearchMoreRuns.

Section ErrorHandlerRuns.
Import Http ErrorHandler.

(** An error without message or status code, in production. *)
Lemma errorHandler_answers_witness :
  errorHandler true {| message := EmptyString; statusCode := None;
                       stack := Some "at handler" |}
  = respond 500 {| errorMessage := "Internal server error"; errorStatus := 500;
                   errorStack := None |}
  /\ errorStack (body (errorHandler true
                         {| message := EmptyString; statusCode := None;
                            stack := Some "at handler" |})) = None.
Proof.
  split; [reflexivity|].
  destruct (errorHandler_answers true
              {| message := EmptyString; statusCode := None;
                 stack := Some "at handler" |}) as (_ & _ & _ & Hstack & _).
  exact (Hstack eq_refl).
Defined.

End ErrorHandlerRuns.
